(** * Client-side session lifecycle of the phone-number login page

    A shallow embedding of the TypeScript sources

      - [src/lib/validation.ts], [src/lib/constants.ts]  (phone validator)
      - [src/lib/auth.ts]                                 (session store)
      - [src/lib/api.ts]                                  (identity client)
      - [src/components/login-form.tsx]                   (login controller)

    together with the properties stated about them in the specification.

    JavaScript strings are sequences of UTF-16 code units, modelled as
    [list N].  Runtime values are untyped (TypeScript types are erased), so
    records travel as [JsVal] trees and every guard is modelled on the
    truthiness and [typeof] tests the source performs. *)

From Stdlib Require Import ZArith NArith Ascii String List Bool Lia DecimalString.
From stdpp Require Import base option list gmap.

Set Default Proof Using "Type".
Open Scope N_scope.

(** * JavaScript strings *)

Module JsString.

Definition jsstring := list N.

(** An ASCII literal as a sequence of code units. *)
Definition js (s : string) : jsstring :=
  map N_of_ascii (list_ascii_of_string s).

(** ECMAScript [WhiteSpace] and [LineTerminator] code points: the
    characters removed by [String.prototype.trim]. *)
Definition isWhiteSpace (c : N) : bool :=
  (c =? 9) || (c =? 10) || (c =? 11) || (c =? 12) || (c =? 13) ||
  (c =? 32) || (c =? 160) || (c =? 5760) ||
  ((8192 <=? c) && (c <=? 8202)) ||
  (c =? 8232) || (c =? 8233) || (c =? 8239) || (c =? 8287) ||
  (c =? 12288) || (c =? 65279).

Fixpoint trimStart (s : jsstring) : jsstring :=
  match s with
  | [] => []
  | c :: s' => if isWhiteSpace c then trimStart s' else s
  end.

Definition trimEnd (s : jsstring) : jsstring := rev (trimStart (rev s)).

(** [s.trim()] *)
Definition trim (s : jsstring) : jsstring := trimEnd (trimStart s).

(** [s.startsWith(p)] *)
Fixpoint startsWith (s p : jsstring) {struct p} : bool :=
  match p, s with
  | [], _ => true
  | _ :: _, [] => false
  | a :: p', b :: s' => (a =? b) && startsWith s' p'
  end.

(** [s.slice(n)] for a non-negative [n]. *)
Definition slice (s : jsstring) (n : nat) : jsstring := drop n s.

(** [s.includes(p)] *)
Fixpoint includes (s p : jsstring) : bool :=
  startsWith s p ||
  match s with
  | [] => false
  | _ :: s' => includes s' p
  end.

Definition is_high_surrogate (c : N) : bool := (55296 <=? c) && (c <=? 56319).
Definition is_low_surrogate (c : N) : bool := (56320 <=? c) && (c <=? 57343).

(** A code unit has 16 bits. *)
Definition unit16 (c : N) : Prop := c < 65536.

(** [s === t] on strings. *)
Definition eqb (s t : jsstring) : bool := bool_decide (s = t).

End JsString.
Export JsString.

(** * PhoneValidator: [src/lib/validation.ts] *)

Module PhoneValidator.

(** The regular expressions of [PHONE_PATTERNS] use only literal
    characters and the class [\d], between the anchors [^] and [$]. *)
Inductive atom := Lit (c : N) | Digit.

Definition RegExp := list atom.

(** [\d]: the ASCII digits. *)
Definition isDigit (c : N) : bool := (48 <=? c) && (c <=? 57).

Definition atom_matches (a : atom) (c : N) : bool :=
  match a with
  | Lit d => d =? c
  | Digit => isDigit c
  end.

(** [pattern.test(s)] for an anchored pattern: the whole input is consumed
    ([$] without the [m] flag matches at the very end only). *)
Fixpoint test (pattern : RegExp) (s : jsstring) : bool :=
  match pattern, s with
  | [], [] => true
  | a :: pattern', c :: s' => atom_matches a c && test pattern' s'
  | _, _ => false
  end.

Definition lits (s : string) : RegExp := map Lit (js s).

Module PHONE_PATTERNS.
(** [/^09\d{9}$/] *)
Definition STANDARD : RegExp := lits "09" ++ replicate 9 Digit.
(** [/^\+989\d{9}$/] *)
Definition INTERNATIONAL : RegExp := lits "+989" ++ replicate 9 Digit.
(** [/^00989\d{9}$/] *)
Definition COUNTRY_CODE : RegExp := lits "00989" ++ replicate 9 Digit.
(** [Object.values(PHONE_PATTERNS)] *)
Definition values : list RegExp := [STANDARD; INTERNATIONAL; COUNTRY_CODE].
End PHONE_PATTERNS.

(** [validateIranianPhone(phone)] on a string argument: [!phone] holds
    for the empty string only. *)
Definition validateIranianPhone (phone : jsstring) : bool :=
  match phone with
  | [] => false
  | _ =>
      let cleanPhone := trim phone in
      existsb (fun pattern => test pattern cleanPhone) PHONE_PATTERNS.values
  end.

(** [normalizeIranianPhone(phone)] *)
Definition normalizeIranianPhone (phone : jsstring) : jsstring :=
  if negb (validateIranianPhone phone) then phone
  else
    let cleanPhone := trim phone in
    if startsWith cleanPhone (js "+989") then js "0" ++ slice cleanPhone 3
    else if startsWith cleanPhone (js "00989") then js "0" ++ slice cleanPhone 4
    else cleanPhone.

(** ** The three shapes, as the specification words them *)

Definition digits9 (ds : jsstring) : Prop :=
  length ds = 9%nat /\ Forall (fun c => isDigit c = true) ds.

(** local: [09] followed by nine digits *)
Definition local_shape (s : jsstring) : Prop :=
  exists ds, s = js "09" ++ ds /\ digits9 ds.

(** international-plus: [+989] followed by nine digits *)
Definition plus_shape (s : jsstring) : Prop :=
  exists ds, s = js "+989" ++ ds /\ digits9 ds.

(** international-zero: [00989] followed by nine digits *)
Definition zero_shape (s : jsstring) : Prop :=
  exists ds, s = js "00989" ++ ds /\ digits9 ds.

Definition exactly_one (P Q R : Prop) : Prop :=
  (P /\ ~ Q /\ ~ R) \/ (~ P /\ Q /\ ~ R) \/ (~ P /\ ~ Q /\ R).

Definition recognized (s : jsstring) : Prop :=
  exactly_one (local_shape s) (plus_shape s) (zero_shape s).

End PhoneValidator.

(** * JavaScript values, errors and completions *)

Module Js.

(** Runtime values as the sources meet them: what [JSON.parse] and
    [response.json()] produce, plus [undefined].  A number is the exact
    decimal [mantissa * 10 ^ exponent]; the sources only test numbers for
    truthiness and type.  The properties of an object are kept in
    insertion order and read left to right: the first binding of a key is
    the property. *)
#[local] Unset Elimination Schemes.
Inductive JsVal :=
| JUndefined
| JNull
| JBool (b : bool)
| JNum (mantissa exponent : Z)
| JStr (s : jsstring)
| JArr (items : list JsVal)
| JObj (props : list (jsstring * JsVal)).
#[local] Set Elimination Schemes.

(** [ToBoolean]: what [!v] and [v && ...] test. *)
Definition truthy (v : JsVal) : bool :=
  match v with
  | JUndefined | JNull => false
  | JBool b => b
  | JNum m _ => negb (m =? 0)%Z
  | JStr s => match s with [] => false | _ => true end
  | JArr _ | JObj _ => true
  end.

(** [typeof v === 'string'] *)
Definition typeof_string (v : JsVal) : bool :=
  match v with JStr _ => true | _ => false end.

Fixpoint assoc (k : jsstring) (props : list (jsstring * JsVal)) : option JsVal :=
  match props with
  | [] => None
  | (k', v) :: props' => if eqb k k' then Some v else assoc k props'
  end.

(** [{...o, k: v}]: the property keeps its place when it exists already. *)
Fixpoint set_prop (k : jsstring) (v : JsVal) (props : list (jsstring * JsVal))
  : list (jsstring * JsVal) :=
  match props with
  | [] => [(k, v)]
  | (k', v') :: props' =>
      if eqb k k' then (k, v) :: props' else (k', v') :: set_prop k v props'
  end.

(** Errors: [instanceof Error] holds of all of them, [instanceof
    ApiError] of those built by [new ApiError(message, status)]. *)
Record JsError := mkError {
  is_ApiError : bool;
  err_name : jsstring;
  err_message : jsstring;
  err_status : option Z
}.

Definition new_Error (message : string) : JsError :=
  mkError false (js "Error") (js message) None.
Definition new_TypeError (message : string) : JsError :=
  mkError false (js "TypeError") (js message) None.
Definition new_SyntaxError (message : string) : JsError :=
  mkError false (js "SyntaxError") (js message) None.

(** Anything can be thrown; only [Error] objects carry a message. *)
Inductive Thrown :=
| ThrownError (e : JsError)
| ThrownValue (v : JsVal).

Inductive Completion (A : Type) :=
| Normal (a : A)
| Throw (t : Thrown).
Arguments Normal {A} a.
Arguments Throw {A} t.

(** [v.k] for a property name [k] that is neither an index nor
    ["length"]: reading a property of [undefined] or [null] throws, a
    primitive or an array has no such property. *)
Definition get_prop (v : JsVal) (k : string) : Completion JsVal :=
  match v with
  | JUndefined | JNull =>
      Throw (ThrownError (new_TypeError "Cannot read properties of undefined"))
  | JObj props => Normal (default JUndefined (assoc (js k) props))
  | _ => Normal JUndefined
  end.

(** The own property [k] of an object; nothing else has own properties
    under the names the sources use. *)
Definition field (v : JsVal) (k : string) : option JsVal :=
  match v with
  | JObj props => assoc (js k) props
  | _ => None
  end.

(** The value of [v.k] when no exception is raised. *)
Definition prop (v : JsVal) (k : string) : JsVal := default JUndefined (field v k).

(** The decimal text of an integer. *)
Definition decimal (z : Z) : jsstring := js (NilZero.string_of_int (Z.to_int z)).

(** The text of the number [m * 10 ^ e]: its decimal digits when it is an
    integer written with exponent 0, a mantissa-and-exponent form
    otherwise. *)
Definition number_text (m e : Z) : jsstring :=
  if (e =? 0)%Z then decimal m else decimal m ++ js "e" ++ decimal e.

(** [a[i]] on a value known to be an array. *)
Definition get_index (v : JsVal) (i : nat) : JsVal :=
  match v with
  | JArr items => default JUndefined (items !! i)
  | _ => JUndefined
  end.

(** A state-and-exception monad over a world [W]: the effects of a
    synchronous JavaScript function body. *)
Definition M (W A : Type) : Type := W -> Completion A * W.

Definition ret {W A} (a : A) : M W A := fun w => (Normal a, w).
Definition throw {W A} (t : Thrown) : M W A := fun w => (Throw t, w).
Definition bind {W A B} (c : M W A) (k : A -> M W B) : M W B :=
  fun w =>
    match c w with
    | (Normal a, w') => k a w'
    | (Throw t, w') => (Throw t, w')
    end.
(** [try { c } catch (error) { h error }] *)
Definition try_catch {W A} (c : M W A) (h : Thrown -> M W A) : M W A :=
  fun w =>
    match c w with
    | (Normal a, w') => (Normal a, w')
    | (Throw t, w') => h t w'
    end.
(** [try { c } finally { f }] *)
Definition try_finally {W A} (c : M W A) (f : M W unit) : M W A :=
  fun w =>
    match c w with
    | (r, w') =>
        match f w' with
        | (Normal _, w'') => (r, w'')
        | (Throw t, w'') => (Throw t, w'')
        end
    end.
Definition lift {W A} (c : Completion A) : M W A := fun w => (c, w).
Definition throw_Error {W A} (e : JsError) : M W A := throw (ThrownError e).

(** [!v.k] *)
Definition missing {W} (v : JsVal) (k : string) : M W bool :=
  bind (lift (get_prop v k)) (fun x => ret (negb (truthy x))).

(** [a || b], short-circuit *)
Definition orM {W} (a b : M W bool) : M W bool :=
  bind a (fun x => if x then ret true else b).

(** [a && b], short-circuit *)
Definition andM {W} (a b : M W bool) : M W bool :=
  bind a (fun x => if x then b else ret false).

(** [v.k] is truthy *)
Definition has {W} (v : JsVal) (k : string) : M W bool :=
  bind (lift (get_prop v k)) (fun x => ret (truthy x)).

(** [typeof v.k1.k2 === 'string'] *)
Definition string_at2 {W} (v : JsVal) (k1 k2 : string) : M W bool :=
  bind (lift (get_prop v k1)) (fun x =>
  bind (lift (get_prop x k2)) (fun y => ret (typeof_string y))).

(** [typeof v.k === 'string'] *)
Definition string_at {W} (v : JsVal) (k : string) : M W bool :=
  bind (lift (get_prop v k)) (fun x => ret (typeof_string x)).

End Js.
Export Js.

Declare Scope js_scope.
Delimit Scope js_scope with js.
Notation "'let!' x ':=' c 'in' k" := (bind c (fun x => k))
  (at level 10, x name, c at level 100, k at level 200) : js_scope.
Notation "c ';;' k" := (bind c (fun _ => k))
  (at level 100, k at level 200, right associativity) : js_scope.
Open Scope js_scope.

(** * SessionStore: [src/lib/auth.ts] *)

Module SessionStore.

(** The platform's [JSON] object.  [JSON_parse] returns [None] where
    [JSON.parse] throws a [SyntaxError]; the empty text is no JSON. *)
Class JSONApi := {
  JSON_stringify : JsVal -> jsstring;
  JSON_parse : jsstring -> option JsVal;
  JSON_parse_empty : JSON_parse [] = None
}.

(** The browser's [localStorage] object: the stored items, and what each
    of its methods throws when the browser refuses the access or the
    quota is exhausted ([None]: the method works). *)
Record Storage := {
  items : gmap jsstring jsstring;
  getItem_fault : option Thrown;
  setItem_fault : option Thrown;
  removeItem_fault : option Thrown
}.

Record World := {
  (** [typeof Storage !== 'undefined'] *)
  Storage_defined : bool;
  (** the global [localStorage]; [None] when it is [undefined] *)
  localStorage : option Storage;
  (** [process.env.NODE_ENV] *)
  NODE_ENV : option jsstring
}.

Definition with_items (m : gmap jsstring jsstring) (st : Storage) : Storage :=
  {| items := m; getItem_fault := getItem_fault st;
     setItem_fault := setItem_fault st; removeItem_fault := removeItem_fault st |}.

Definition with_storage (st : Storage) (w : World) : World :=
  {| Storage_defined := Storage_defined w; localStorage := Some st;
     NODE_ENV := NODE_ENV w |}.

Definition no_localStorage : Thrown :=
  ThrownError (new_TypeError "Cannot read properties of undefined").

(** [localStorage.getItem(key)]; [None] is [null]. *)
Definition getItem (key : jsstring) : M World (option jsstring) :=
  fun w =>
    match localStorage w with
    | None => (Throw no_localStorage, w)
    | Some st =>
        match getItem_fault st with
        | Some t => (Throw t, w)
        | None => (Normal (items st !! key), w)
        end
    end.

(** [localStorage.setItem(key, value)] *)
Definition setItem (key value : jsstring) : M World unit :=
  fun w =>
    match localStorage w with
    | None => (Throw no_localStorage, w)
    | Some st =>
        match setItem_fault st with
        | Some t => (Throw t, w)
        | None => (Normal tt, with_storage (with_items (<[key := value]> (items st)) st) w)
        end
    end.

(** [localStorage.removeItem(key)] *)
Definition removeItem (key : jsstring) : M World unit :=
  fun w =>
    match localStorage w with
    | None => (Throw no_localStorage, w)
    | Some st =>
        match removeItem_fault st with
        | Some t => (Throw t, w)
        | None => (Normal tt, with_storage (with_items (delete key (items st)) st) w)
        end
    end.

(** [typeof Storage === 'undefined' || !localStorage] *)
Definition storage_missing : M World bool :=
  fun w => (Normal (negb (Storage_defined w) || bool_decide (localStorage w = None)), w).

(** [process.env.NODE_ENV !== 'test'] *)
Definition not_test_env : M World bool :=
  fun w => (Normal (negb (bool_decide (NODE_ENV w = Some (js "test")))), w).

Module STORAGE_KEYS.
Definition USER_DATA : jsstring := js "auth_user_data".
Definition AUTH_STATE : jsstring := js "auth_state".
End STORAGE_KEYS.

Section WithJSON.
Context {JSON : JSONApi}.

(** The rethrow of [saveUserToStorage]'s [catch] clause. *)
Definition save_rethrow (error : Thrown) : M World unit :=
  match error with
  | ThrownError e =>
      if includes (err_message e) (js "QuotaExceededError")
         || eqb (err_name e) (js "QuotaExceededError")
         || includes (err_message e) (js "Storage quota exceeded")
      then throw_Error (new_Error
             "Storage quota exceeded. Please clear some browser data and try again.")
      else if includes (err_message e) (js "not available")
      then throw_Error (new_Error
             "Browser storage is not available. Please enable localStorage and try again.")
      else throw error
  | ThrownValue _ =>
      throw_Error (new_Error "Unable to save login information. Please try again.")
  end.

(** [saveUserToStorage(user)]; the calls of [console.error] have no
    effect on the world modelled here. *)
Definition saveUserToStorage (user : JsVal) : M World unit :=
  try_catch
    (let! unavailable := storage_missing in
     if unavailable
     then throw_Error (new_Error "localStorage is not available in this browser")
     else
       let! invalid :=
         orM (ret (negb (truthy user)))
             (orM (missing user "name")
                  (orM (missing user "email") (missing user "picture"))) in
       if invalid
       then throw_Error (new_Error "Invalid user data: missing required fields")
       else
         let userData := JSON_stringify user in
         setItem STORAGE_KEYS.USER_DATA userData ;;
         let! verify := not_test_env in
         if verify then
           let! storedData := getItem STORAGE_KEYS.USER_DATA in
           match storedData with
           | Some ((_ :: _) as stored) =>
               if eqb stored userData then ret tt
               else throw_Error (new_Error "Failed to verify stored user data")
           | _ => throw_Error (new_Error "Failed to verify stored user data")
           end
         else ret tt)
    save_rethrow.

(** The structure check of [getUserFromStorage]. *)
Definition expected_structure (user : JsVal) : M World bool :=
  andM (ret (truthy user))
    (andM (has user "name")
    (andM (string_at2 user "name" "first")
    (andM (string_at2 user "name" "last")
    (andM (string_at user "email")
    (andM (has user "picture")
    (andM (string_at2 user "picture" "large")
    (andM (string_at2 user "picture" "medium")
          (string_at2 user "picture" "thumbnail")))))))).

(** [getUserFromStorage()]; [None] is [null]. *)
Definition getUserFromStorage : M World (option JsVal) :=
  try_catch
    (let! unavailable := storage_missing in
     if unavailable then ret None
     else
       let! userData := getItem STORAGE_KEYS.USER_DATA in
       match userData with
       | None | Some [] => ret None
       | Some userData =>
           let! user :=
             match JSON_parse userData with
             | Some v => ret v
             | None => throw_Error (new_SyntaxError "Unexpected token in JSON")
             end in
           let! ok := expected_structure user in
           if ok then ret (Some user)
           else
             removeItem STORAGE_KEYS.USER_DATA ;;
             ret None
       end)
    (fun error =>
       try_catch (removeItem STORAGE_KEYS.USER_DATA) (fun clearError => ret tt) ;;
       ret None).

(** [clearUserFromStorage()] *)
Definition clearUserFromStorage : M World unit :=
  try_catch
    (let! unavailable := storage_missing in
     if unavailable
     then throw_Error (new_Error "localStorage is not available in this browser")
     else
       removeItem STORAGE_KEYS.USER_DATA ;;
       let! verify := not_test_env in
       if verify then
         let! remainingData := getItem STORAGE_KEYS.USER_DATA in
         match remainingData with
         | Some _ => throw_Error (new_Error "Failed to clear user data from storage")
         | None => ret tt
         end
       else ret tt)
    (fun error =>
       match error with
       | ThrownError e =>
           if includes (err_message e) (js "access denied")
              || includes (err_message e) (js "localStorage access denied")
           then throw_Error (new_Error
                  "Unable to access browser storage. Please check your browser settings.")
           else throw error
       | ThrownValue _ =>
           throw_Error (new_Error
             "Unable to clear login information. Please try refreshing the page.")
       end).

(** [isAuthenticated()] *)
Definition isAuthenticated : M World bool :=
  let! user := getUserFromStorage in
  ret (bool_decide (user <> None)).

End WithJSON.

(** ** The interface [User] of [src/types/user.ts] and its run-time value *)

Record User := {
  name_first : jsstring;
  name_last : jsstring;
  email : jsstring;
  picture_large : jsstring;
  picture_medium : jsstring;
  picture_thumbnail : jsstring
}.

Definition User_value (u : User) : JsVal :=
  JObj [(js "name", JObj [(js "first", JStr (name_first u)); (js "last", JStr (name_last u))]);
        (js "email", JStr (email u));
        (js "picture", JObj [(js "large", JStr (picture_large u));
                             (js "medium", JStr (picture_medium u));
                             (js "thumbnail", JStr (picture_thumbnail u))])].

(** Every string of the record is a sequence of 16-bit code units. *)
Definition well_formed (u : User) : Prop :=
  Forall unit16 (name_first u) /\ Forall unit16 (name_last u) /\ Forall unit16 (email u) /\
  Forall unit16 (picture_large u) /\ Forall unit16 (picture_medium u) /\
  Forall unit16 (picture_thumbnail u).

(** ** The UserRecord invariant, as the specification words it: the six
    leaf fields are present and of string type. *)

Definition string_leaf (v : JsVal) (path : list string) : Prop :=
  exists s, foldl (fun o k => o ≫= (fun x => field x k)) (Some v) path = Some (JStr s).

Definition UserRecord (u : JsVal) : Prop :=
  string_leaf u ["name"; "first"]%string /\
  string_leaf u ["name"; "last"]%string /\
  string_leaf u ["email"]%string /\
  string_leaf u ["picture"; "large"]%string /\
  string_leaf u ["picture"; "medium"]%string /\
  string_leaf u ["picture"; "thumbnail"]%string.

Import STORAGE_KEYS.

(** ** Guards and worlds named by the properties *)

(** The structure check of [getUserFromStorage] as a boolean. *)
Definition structure_ok (u : JsVal) : bool :=
  truthy u && truthy (prop u "name") &&
  typeof_string (prop (prop u "name") "first") &&
  typeof_string (prop (prop u "name") "last") &&
  typeof_string (prop u "email") &&
  truthy (prop u "picture") &&
  typeof_string (prop (prop u "picture") "large") &&
  typeof_string (prop (prop u "picture") "medium") &&
  typeof_string (prop (prop u "picture") "thumbnail").

(** The guard of [saveUserToStorage]: [user], [user.name], [user.email]
    or [user.picture] is falsy. *)
Definition toplevel_missing (u : JsVal) : bool :=
  negb (truthy u) || negb (truthy (prop u "name")) ||
  negb (truthy (prop u "email")) || negb (truthy (prop u "picture")).

(** What [saveUserToStorage] throws at a record that fails its guard. *)
Definition invalid_user_data : Thrown :=
  ThrownError (new_Error "Invalid user data: missing required fields").

(** The world after a successful [setItem] of the user data. *)
Definition written (data : jsstring) (st : Storage) (w : World) : World :=
  with_storage (with_items (<[USER_DATA := data]> (items st)) st) w.

(** The content stored under the user-data key. *)
Definition stored (w : World) : option jsstring :=
  localStorage w ≫= (fun st => items st !! USER_DATA).

(** A stored content is corrupt when it does not parse, or parses to a
    value that fails the UserRecord invariant. *)
Definition corrupt {JSON : JSONApi} (content : jsstring) : Prop :=
  JSON_parse content = None \/
  exists v, JSON_parse content = Some v /\ ~ UserRecord v.

(** The world once the user-data key is removed. *)
Definition cleared (st : Storage) (w : World) : World :=
  with_storage (with_items (delete USER_DATA (items st)) st) w.

End SessionStore.

(** * A reference implementation of the platform's [JSON] object

    Used to run the store on concrete contents.  It reads the whole JSON
    grammar and writes strings as ECMAScript does (short escapes, [\u00xx]
    for other control characters and for lone surrogates).  Numbers are kept
    exact instead of being rounded to binary64, and are written as
    [mantissa] or [mantissa e exponent]. *)

Module ReferenceJSON.
Import SessionStore.

Definition hex_digit (n : N) : N := if n <? 10 then 48 + n else 87 + n.

Definition hex4 (c : N) : jsstring :=
  [hex_digit (c / 4096 mod 16); hex_digit (c / 256 mod 16);
   hex_digit (c / 16 mod 16); hex_digit (c mod 16)].

(** [QuoteJSONString] without the surrounding quotes. *)
Fixpoint escape (s : jsstring) : jsstring :=
  match s with
  | [] => []
  | c :: s' =>
      if c =? 34 then [92; 34] ++ escape s'
      else if c =? 92 then js "\\" ++ escape s'
      else if c =? 8 then js "\b" ++ escape s'
      else if c =? 12 then js "\f" ++ escape s'
      else if c =? 10 then js "\n" ++ escape s'
      else if c =? 13 then js "\r" ++ escape s'
      else if c =? 9 then js "\t" ++ escape s'
      else if c <? 32 then js "\u" ++ hex4 c ++ escape s'
      else if is_high_surrogate c then
        match s' with
        | d :: s'' =>
            if is_low_surrogate d then c :: d :: escape s''
            else js "\u" ++ hex4 c ++ escape s'
        | [] => js "\u" ++ hex4 c
        end
      else if is_low_surrogate c then js "\u" ++ hex4 c ++ escape s'
      else c :: escape s'
  end.

Definition quote (s : jsstring) : jsstring := [34] ++ escape s ++ [34].

Fixpoint join (parts : list jsstring) : jsstring :=
  match parts with
  | [] => []
  | [x] => x
  | x :: rest => x ++ js "," ++ join rest
  end.

(** [SerializeJSONProperty]; [None] is [undefined]. *)
Fixpoint serialize (v : JsVal) : option jsstring :=
  match v with
  | JUndefined => None
  | JNull => Some (js "null")
  | JBool b => Some (if b then js "true" else js "false")
  | JNum m e => Some (number_text m e)
  | JStr s => Some (quote s)
  | JArr items =>
      let elements :=
        (fix go (l : list JsVal) : list jsstring :=
           match l with
           | [] => []
           | x :: l' => default (js "null") (serialize x) :: go l'
           end) items in
      Some (js "[" ++ join elements ++ js "]")
  | JObj props =>
      let members :=
        (fix go (l : list (jsstring * JsVal)) : list jsstring :=
           match l with
           | [] => []
           | (k, x) :: l' =>
               match serialize x with
               | Some t => (quote k ++ js ":" ++ t) :: go l'
               | None => go l'
               end
           end) props in
      Some (js "{" ++ join members ++ js "}")
  end.

Definition stringify (v : JsVal) : jsstring := default (js "undefined") (serialize v).

(** *** Reading *)

Definition is_json_space (c : N) : bool :=
  (c =? 32) || (c =? 9) || (c =? 10) || (c =? 13).

Fixpoint skip_ws (s : jsstring) : jsstring :=
  match s with
  | c :: s' => if is_json_space c then skip_ws s' else s
  | [] => []
  end.

Definition hex_value (c : N) : option N :=
  if (48 <=? c) && (c <=? 57) then Some (c - 48)
  else if (97 <=? c) && (c <=? 102) then Some (c - 87)
  else if (65 <=? c) && (c <=? 70) then Some (c - 55)
  else None.

(** The characters after an opening quote, up to the closing one. *)
Fixpoint read_string (fuel : nat) (s acc : jsstring) : option (jsstring * jsstring) :=
  match fuel with
  | O => None
  | S fuel' =>
      match s with
      | [] => None
      | c :: s' =>
          if c =? 34 then Some (acc, s')
          else if c =? 92 then
            match s' with
            | e :: s'' =>
                if e =? 34 then read_string fuel' s'' (acc ++ [34])
                else if e =? 92 then read_string fuel' s'' (acc ++ [92])
                else if e =? 47 then read_string fuel' s'' (acc ++ [47])
                else if e =? 98 then read_string fuel' s'' (acc ++ [8])
                else if e =? 102 then read_string fuel' s'' (acc ++ [12])
                else if e =? 110 then read_string fuel' s'' (acc ++ [10])
                else if e =? 114 then read_string fuel' s'' (acc ++ [13])
                else if e =? 116 then read_string fuel' s'' (acc ++ [9])
                else if e =? 117 then
                  match s'' with
                  | a :: b :: c' :: d :: rest =>
                      match hex_value a, hex_value b, hex_value c', hex_value d with
                      | Some a, Some b, Some c', Some d =>
                          read_string fuel' rest (acc ++ [a * 4096 + b * 256 + c' * 16 + d])
                      | _, _, _, _ => None
                      end
                  | _ => None
                  end
                else None
            | [] => None
            end
          else if c <? 32 then None
          else read_string fuel' s' (acc ++ [c])
      end
  end.

Fixpoint read_digits (s : jsstring) : list N * jsstring :=
  match s with
  | c :: s' =>
      if (48 <=? c) && (c <=? 57)
      then let '(ds, r) := read_digits s' in (c - 48 :: ds, r)
      else ([], s)
  | [] => ([], [])
  end.

Definition digits_value (ds : list N) : Z :=
  foldl (fun acc d => acc * 10 + Z.of_N d)%Z 0%Z ds.

(** A JSON number: an optional minus sign, an integer part without
    leading zero, an optional fraction, an optional exponent. *)
Definition read_number (s : jsstring) : option (JsVal * jsstring) :=
  let '(negative, s1) :=
    match s with 45 :: r => (true, r) | _ => (false, s) end in
  let '(int_digits, s2) := read_digits s1 in
  match int_digits with
  | [] => None
  | 0 :: _ :: _ => None
  | _ =>
      let frac :=
        match s2 with
        | 46 :: r =>
            let '(ds, r') := read_digits r in
            match ds with [] => None | _ => Some (ds, r') end
        | _ => Some ([], s2)
        end in
      match frac with
      | None => None
      | Some (frac_digits, s3) =>
          let exponent :=
            match s3 with
            | c :: r =>
                if (c =? 101) || (c =? 69) then
                  let '(minus, r1) :=
                    match r with
                    | 45 :: r' => (true, r')
                    | 43 :: r' => (false, r')
                    | _ => (false, r)
                    end in
                  let '(ds, r2) := read_digits r1 in
                  match ds with
                  | [] => None
                  | _ => Some ((if minus then - digits_value ds else digits_value ds)%Z, r2)
                  end
                else Some (0%Z, s3)
            | [] => Some (0%Z, s3)
            end in
          match exponent with
          | None => None
          | Some (e, s4) =>
              let m := digits_value (int_digits ++ frac_digits) in
              Some (JNum (if negative then - m else m)%Z
                         (e - Z.of_nat (length frac_digits))%Z, s4)
          end
      end
  end.

Definition read_literal (word : string) (v : JsVal) (s : jsstring)
  : option (JsVal * jsstring) :=
  if startsWith s (js word) then Some (v, drop (length (js word)) s) else None.

Fixpoint read_value (fuel : nat) (s : jsstring) : option (JsVal * jsstring) :=
  match fuel with
  | O => None
  | S fuel' =>
      match skip_ws s with
      | [] => None
      | c :: r =>
          if c =? 123 then
            match skip_ws r with
            | 125 :: r' => Some (JObj [], r')
            | _ => read_members fuel' r []
            end
          else if c =? 91 then
            match skip_ws r with
            | 93 :: r' => Some (JArr [], r')
            | _ => read_elements fuel' r []
            end
          else if c =? 34 then
            match read_string (length r) r [] with
            | Some (str, r') => Some (JStr str, r')
            | None => None
            end
          else if c =? 116 then read_literal "true" (JBool true) (c :: r)
          else if c =? 102 then read_literal "false" (JBool false) (c :: r)
          else if c =? 110 then read_literal "null" JNull (c :: r)
          else read_number (c :: r)
      end
  end
with read_elements (fuel : nat) (s : jsstring) (acc : list JsVal)
  : option (JsVal * jsstring) :=
  match fuel with
  | O => None
  | S fuel' =>
      match read_value fuel' s with
      | Some (v, r) =>
          match skip_ws r with
          | 44 :: r' => read_elements fuel' r' (acc ++ [v])
          | 93 :: r' => Some (JArr (acc ++ [v]), r')
          | _ => None
          end
      | None => None
      end
  end
with read_members (fuel : nat) (s : jsstring) (acc : list (jsstring * JsVal))
  : option (JsVal * jsstring) :=
  match fuel with
  | O => None
  | S fuel' =>
      match skip_ws s with
      | 34 :: r =>
          match read_string (length r) r [] with
          | Some (k, r1) =>
              match skip_ws r1 with
              | 58 :: r2 =>
                  match read_value fuel' r2 with
                  | Some (v, r3) =>
                      match skip_ws r3 with
                      | 44 :: r4 => read_members fuel' r4 (set_prop k v acc)
                      | 125 :: r4 => Some (JObj (set_prop k v acc), r4)
                      | _ => None
                      end
                  | None => None
                  end
              | _ => None
              end
          | None => None
          end
      | _ => None
      end
  end.

(** [JSON.parse(text)]; [None] where it throws. *)
Definition parse (text : jsstring) : option JsVal :=
  match read_value (2 * length text + 2) text with
  | Some (v, r) => match skip_ws r with [] => Some v | _ => None end
  | None => None
  end.

#[export] Instance reference_JSON : JSONApi :=
  {| JSON_stringify := stringify; JSON_parse := parse;
     JSON_parse_empty := eq_refl |}.

End ReferenceJSON.

(** * IdentityClient: [src/lib/api.ts] *)

Module IdentityClient.

(** [new ApiError(message, status)] *)
Definition new_ApiError (message : jsstring) (status : option Z) : JsError :=
  mkError true (js "ApiError") message status.

Module API_CONFIG.
Definition RANDOM_USER_URL : jsstring := js "https://randomuser.me/api/?results=1&nat=ir".
Definition REQUEST_TIMEOUT : Z := 10000.
Definition MAX_RETRY_ATTEMPTS : Z := 3.
End API_CONFIG.

Module ERROR_MESSAGES.
Definition CONNECTION_ERROR : jsstring :=
  js "Unable to connect to the server. Please check your internet connection and try again.".
Definition TIMEOUT : jsstring :=
  js "Request timed out. Please check your internet connection and try again.".
End ERROR_MESSAGES.

(** What the network answers during one call of [fetchRandomUser]. *)
Record Response := {
  (** [response.ok] *)
  ok : bool;
  (** [response.status] *)
  status : Z;
  (** [await response.json()] *)
  json : Completion JsVal
}.

Record Network := {
  (** [await fetch(API_CONFIG.RANDOM_USER_URL, ...)]; a rejection is a
      transport failure, or the [AbortError] raised when the timeout of
      [REQUEST_TIMEOUT] milliseconds aborts the request *)
  fetch_user : Completion Response;
  (** [(await fetch(url, { method: 'HEAD', ... })).ok] *)
  fetch_head : jsstring -> Completion bool
}.

(** ** Platform functions used to build the avatar addresses *)

(** [ToString], as a template literal applies it.  An object from JSON
    with an own [toString] property (never callable) cannot be converted. *)
Fixpoint ToString (v : JsVal) : Completion jsstring :=
  match v with
  | JUndefined => Normal (js "undefined")
  | JNull => Normal (js "null")
  | JBool b => Normal (if b then js "true" else js "false")
  | JNum m e => Normal (number_text m e)
  | JStr s => Normal s
  | JArr items =>
      (fix join (l : list JsVal) : Completion jsstring :=
         match l with
         | [] => Normal []
         | x :: l' =>
             let element :=
               match x with
               | JUndefined | JNull => Normal []
               | _ => ToString x
               end in
             match element with
             | Throw e => Throw e
             | Normal t =>
                 match l' with
                 | [] => Normal t
                 | _ =>
                     match join l' with
                     | Normal rest => Normal (t ++ js "," ++ rest)
                     | Throw e => Throw e
                     end
                 end
             end
         end) items
  | JObj props =>
      match assoc (js "toString") props with
      | Some _ =>
          Throw (ThrownError (new_TypeError "Cannot convert object to primitive value"))
      | None => Normal (js "[object Object]")
      end
  end.

(** The scalar values of a string: a lone surrogate reads as U+FFFD. *)
Fixpoint code_points (s : jsstring) : list N :=
  match s with
  | [] => []
  | c :: s' =>
      if is_high_surrogate c then
        match s' with
        | d :: s'' =>
            if is_low_surrogate d
            then 65536 + (c - 55296) * 1024 + (d - 56320) :: code_points s''
            else 65533 :: code_points s'
        | [] => [65533]
        end
      else if is_low_surrogate c then 65533 :: code_points s'
      else c :: code_points s'
  end.

Definition utf8 (cp : N) : list N :=
  if cp <? 128 then [cp]
  else if cp <? 2048 then [192 + cp / 64; 128 + cp mod 64]
  else if cp <? 65536 then [224 + cp / 4096; 128 + cp / 64 mod 64; 128 + cp mod 64]
  else [240 + cp / 262144; 128 + cp / 4096 mod 64; 128 + cp / 64 mod 64; 128 + cp mod 64].

Definition HEX_digit (n : N) : N := if n <? 10 then 48 + n else 55 + n.

(** The [application/x-www-form-urlencoded] byte serializer. *)
Definition form_byte (b : N) : jsstring :=
  if ((48 <=? b) && (b <=? 57)) || ((65 <=? b) && (b <=? 90)) || ((97 <=? b) && (b <=? 122))
     || (b =? 42) || (b =? 45) || (b =? 46) || (b =? 95)
  then [b]
  else if b =? 32 then [43]
  else [37; HEX_digit (b / 16); HEX_digit (b mod 16)].

Definition form_encode (s : jsstring) : jsstring :=
  flat_map form_byte (flat_map utf8 (code_points s)).

(** [new URLSearchParams(params).toString()] *)
Fixpoint URLSearchParams_toString (params : list (jsstring * jsstring)) : jsstring :=
  match params with
  | [] => []
  | [(k, v)] => form_encode k ++ js "=" ++ form_encode v
  | (k, v) :: rest =>
      form_encode k ++ js "=" ++ form_encode v ++ js "&" ++ URLSearchParams_toString rest
  end.

(** ** The client *)

Definition avatars (baseUrl : jsstring) : JsVal :=
  JObj [(js "large", JStr (baseUrl ++ js "&size=256"));
        (js "medium", JStr (baseUrl ++ js "&size=128"));
        (js "thumbnail", JStr (baseUrl ++ js "&size=64"))].

(** [generateHijabAvatars(firstName, lastName)] *)
Definition generateHijabAvatars {W} (firstName lastName : JsVal) : M W JsVal :=
  let! first := lift (ToString firstName) in
  let! last := lift (ToString lastName) in
  let fullName := first ++ js " " ++ last in
  let diceBearUrl := js "https://api.dicebear.com/8.x/avataaars/png" in
  let params := URLSearchParams_toString
    [(js "seed", fullName);
     (js "top", js "hijab");
     (js "topColor", js "262e33,65c9ff,f88c49,ff5722,ff9800,ffc107");
     (js "backgroundColor", js "f3f4f6");
     (js "clothingGraphic", js "none");
     (js "eyebrows", js "default");
     (js "eyes", js "default");
     (js "facialHair", js "none");
     (js "mouth", js "default");
     (js "skinColor", js "fdbcb4,edb98a,fd9841,f8d25c,f1c27d,ffdbac")] in
  let baseUrl := diceBearUrl ++ js "?" ++ params in
  ret (avatars baseUrl).

(** [generateAlternativeHijabAvatars(firstName, lastName)] *)
Definition generateAlternativeHijabAvatars {W} (firstName lastName : JsVal) : M W JsVal :=
  let! first := lift (ToString firstName) in
  let! last := lift (ToString lastName) in
  let fullName := first ++ js " " ++ last in
  let diceBearUrl := js "https://api.dicebear.com/8.x/adventurer/png" in
  let params := URLSearchParams_toString
    [(js "seed", fullName); (js "backgroundColor", js "f3f4f6")] in
  let baseUrl := diceBearUrl ++ js "?" ++ params in
  ret (avatars baseUrl).

(** [testAvatarUrl(url)]: any failure of the probe reads as [false]. *)
Definition testAvatarUrl (url : JsVal) : M Network bool :=
  fun net =>
    match url with
    | JStr u =>
        match fetch_head net u with
        | Normal b => (Normal b, net)
        | Throw _ => (Normal false, net)
        end
    | _ => (Normal false, net)
    end.

(** [Array.isArray(v)] *)
Definition isArray (v : JsVal) : bool :=
  match v with JArr _ => true | _ => false end.

(** [v.length === 0] on an array *)
Definition length_is_zero (v : JsVal) : bool :=
  match v with JArr [] => true | _ => false end.

(** [{...user}]: a primitive contributes no named property; a value
    reaching the spread below has passed the guard and is an object. *)
Definition own_props (v : JsVal) : list (jsstring * JsVal) :=
  match v with JObj props => props | _ => [] end.

(** The [catch] clause of [fetchRandomUser]. *)
Definition classify (error : Thrown) : M Network JsVal :=
  match error with
  | ThrownError e =>
      if is_ApiError e then throw error
      else if eqb (err_name e) (js "AbortError")
      then throw_Error (new_ApiError ERROR_MESSAGES.TIMEOUT None)
      else if includes (err_message e) (js "Failed to fetch")
      then throw_Error (new_ApiError ERROR_MESSAGES.CONNECTION_ERROR None)
      else throw_Error (new_ApiError (js "An unexpected error occurred") None)
  | ThrownValue _ =>
      throw_Error (new_ApiError (js "An unexpected error occurred") None)
  end.

(** [fetchRandomUser()], from the request to the settled promise:
    [Normal user] when it resolves, [Throw error] when it rejects.  The
    timer only decides whether the request is aborted, which is part of
    [fetch_user]. *)
Definition fetchRandomUser : M Network JsVal :=
  try_catch
    (let! response := (fun net => (fetch_user net, net)) in
     if negb (ok response)
     then throw_Error
            (new_ApiError (js "API request failed with status " ++ decimal (status response))
                          (Some (status response)))
     else
       let! data := lift (json response) in
       let! results := lift (get_prop data "results") in
       if negb (truthy results) || negb (isArray results) || length_is_zero results
       then throw_Error (new_ApiError (js "Invalid API response: no user data found") None)
       else
         let user := get_index results 0 in
         let! invalid :=
           orM (missing user "name") (orM (missing user "email") (missing user "picture")) in
         if invalid
         then throw_Error (new_ApiError (js "Invalid user data: missing required fields") None)
         else
           let! name := lift (get_prop user "name") in
           let! first := lift (get_prop name "first") in
           let! last := lift (get_prop name "last") in
           let! hijabAvatars := generateHijabAvatars first last in
           let! medium := lift (get_prop hijabAvatars "medium") in
           let! isValidUrl := testAvatarUrl medium in
           let! hijabAvatars :=
             if isValidUrl then ret hijabAvatars
             else
               let! name := lift (get_prop user "name") in
               let! first := lift (get_prop name "first") in
               let! last := lift (get_prop name "last") in
               generateAlternativeHijabAvatars first last in
           ret (JObj (set_prop (js "picture") hijabAvatars (own_props user))))
    classify.

(** The guard of [fetchRandomUser]: [user.name], [user.email] or
    [user.picture] is falsy. *)
Definition fields_missing (user : JsVal) : bool :=
  negb (truthy (prop user "name")) || negb (truthy (prop user "email")) ||
  negb (truthy (prop user "picture")).

Definition missing_required_fields : Thrown :=
  ThrownError (new_ApiError (js "Invalid user data: missing required fields") None).

End IdentityClient.

(** * LoginController: [src/components/login-form.tsx] *)

Module LoginController.
Import PhoneValidator SessionStore IdentityClient.

Inductive ErrorType := validation | network | api | storage | redirect | general.

Record ErrorState := {
  message : jsstring;
  type : ErrorType;
  retryable : bool
}.

(** The values of the component's five [useState] hooks in one render. *)
Record State := {
  phoneNumber : jsstring;
  error : option ErrorState;
  isLoading : bool;
  isRedirecting : bool;
  retryCount : nat
}.

Definition initial : State :=
  {| phoneNumber := []; error := None; isLoading := false;
     isRedirecting := false; retryCount := 0 |}.

(** The page: the component's state and the browser it runs in. *)
Record Page := { state : State; world : World }.

(** What the outside does during one submission: the network answers of
    [fetchRandomUser], and whether [router.push] throws. *)
Record Environment := {
  remote : Network;
  router_push : Completion unit
}.

(** ** State setters

    A setter does not change the constants of the render that called it:
    it records the value of the next render.  The handlers below therefore
    read the state from the render [r] they were created in, and write to
    the pending state carried by the monad. *)

Definition set_state (f : State -> State) : M Page unit :=
  fun p => (Normal tt, {| state := f (state p); world := world p |}).

Definition setPhoneNumber (v : jsstring) : M Page unit :=
  set_state (fun s => {| phoneNumber := v; error := error s; isLoading := isLoading s;
                         isRedirecting := isRedirecting s; retryCount := retryCount s |}).
Definition setError (e : option ErrorState) : M Page unit :=
  set_state (fun s => {| phoneNumber := phoneNumber s; error := e; isLoading := isLoading s;
                         isRedirecting := isRedirecting s; retryCount := retryCount s |}).
Definition setIsLoading (b : bool) : M Page unit :=
  set_state (fun s => {| phoneNumber := phoneNumber s; error := error s; isLoading := b;
                         isRedirecting := isRedirecting s; retryCount := retryCount s |}).
Definition setIsRedirecting (b : bool) : M Page unit :=
  set_state (fun s => {| phoneNumber := phoneNumber s; error := error s;
                         isLoading := isLoading s; isRedirecting := b;
                         retryCount := retryCount s |}).
Definition setRetryCount (n : nat) : M Page unit :=
  set_state (fun s => {| phoneNumber := phoneNumber s; error := error s;
                         isLoading := isLoading s; isRedirecting := isRedirecting s;
                         retryCount := n |}).

(** [setErrorState(message, type, retryable)] *)
Definition setErrorState (message : string) (type : ErrorType) (retryable : bool)
  : M Page unit :=
  setError (Some {| message := js message; type := type; retryable := retryable |}).

(** [clearError()] *)
Definition clearError : M Page unit :=
  setError None ;;
  setRetryCount 0.

(** [error?.retryable] as a condition *)
Definition is_retryable (e : option ErrorState) : bool :=
  match e with Some e => retryable e | None => false end.

Section Handlers.
Context {JSON : JSONApi}.

(** The render whose closures are running. *)
Variable r : State.

(** [handlePhoneChange(e)] with [e.target.value = value] *)
Definition handlePhoneChange (value : jsstring) : M Page unit :=
  setPhoneNumber value ;;
  match error r with
  | Some _ => clearError
  | None => ret tt
  end.

(** [validateForm()] *)
Definition validateForm : M Page bool :=
  match trim (phoneNumber r) with
  | [] =>
      setErrorState
        "Mobile number is required. Please enter your Iranian mobile number."
        validation false ;;
      ret false
  | _ =>
      if negb (validateIranianPhone (phoneNumber r)) then
        setErrorState
          "Please enter a valid Iranian mobile number. Accepted formats: 09xxxxxxxxx, +989xxxxxxxxx, or 00989xxxxxxxxx"
          validation false ;;
        ret false
      else ret true
  end.

(** [await fetchRandomUser()] *)
Definition await_fetchRandomUser (env : Environment) : M Page JsVal :=
  lift (fst (fetchRandomUser (remote env))).

(** A call into [src/lib/auth.ts] acts on the browser. *)
Definition in_world {A} (c : M World A) : M Page A :=
  fun p => let '(a, w) := c (world p) in (a, {| state := state p; world := w |}).

(** The [catch (err)] clause of [handleSubmit]. *)
Definition present_failure (err : Thrown) : M Page unit :=
  let currentRetry := (retryCount r + 1)%nat in
  setRetryCount currentRetry ;;
  match err with
  | ThrownError e =>
      if is_ApiError e then
        if includes (err_message e) (js "timeout") then
          setErrorState
            "Request timed out. Please check your internet connection and try again."
            network true
        else if includes (err_message e) (js "Network error") then
          setErrorState
            "Unable to connect to the server. Please check your internet connection and try again."
            network true
        else if match err_status e with Some st => negb (st =? 0)%Z && (500 <=? st)%Z | None => false end then
          setErrorState
            "Server is temporarily unavailable. Please try again in a few moments."
            api true
        else if match err_status e with Some st => negb (st =? 0)%Z && (400 <=? st)%Z | None => false end then
          setErrorState "There was a problem with your request. Please try again." api true
        else
          setError (Some {| message := err_message e; type := api; retryable := true |})
      else
        setErrorState
          "An unexpected error occurred. Please try again or contact support if the problem persists."
          general true
  | ThrownValue _ =>
      setErrorState
        "An unexpected error occurred. Please try again or contact support if the problem persists."
        general true
  end.

(** [handleSubmit(e)], from the click to the settled promise.  The render
    that happens while the request is pending shows the loading state with
    every control disabled, so no other handler runs in between. *)
Definition handleSubmit (env : Environment) : M Page unit :=
  clearError ;;
  let! valid := validateForm in
  if negb valid then ret tt
  else
    setIsLoading true ;;
    try_finally
      (try_catch
         (let! userData := await_fetchRandomUser env in
          let! saved :=
            try_catch
              (in_world (saveUserToStorage userData) ;; ret true)
              (fun _storageError =>
                 setErrorState
                   "Unable to save login information. Please check your browser settings and try again."
                   storage true ;;
                 ret false) in
          if negb saved then ret tt
          else
            setIsRedirecting true ;;
            try_catch
              (lift (router_push env))
              (fun _redirectError =>
                 setErrorState
                   "Login successful but unable to redirect. Please refresh the page."
                   redirect true ;;
                 setIsRedirecting false))
         present_failure)
      (setIsLoading false).

(** [handleRetry()] *)
Definition handleRetry (env : Environment) : M Page unit :=
  if is_retryable (error r) then
    clearError ;;
    handleSubmit env
  else ret tt.

End Handlers.

(** ** What the render offers *)

(** [disabled={isLoading || isRedirecting}] on the input and both buttons *)
Definition controls_disabled (s : State) : bool := isLoading s || isRedirecting s.

(** The "Try Again" button is rendered: [error?.retryable && retryCount < 3] *)
Definition retry_offered (s : State) : bool :=
  is_retryable (error s) && (retryCount s <? 3)%nat.

(** The "Refresh Page" button is rendered: [retryCount >= 3 && error?.retryable] *)
Definition reset_offered (s : State) : bool :=
  (3 <=? retryCount s)%nat && is_retryable (error s).

(** The "Attempt N of 3" line: [error.retryable && retryCount > 0] *)
Definition attempt_shown (s : State) : option nat :=
  if is_retryable (error s) && (0 <? retryCount s)%nat then Some (retryCount s) else None.

(** ** Events *)

Inductive Event :=
| Change (value : jsstring)
| Submit (env : Environment)
| ClickRetry (env : Environment)
| ClickRefresh.

Definition run (c : M Page unit) (p : Page) : Page := snd (c p).

(** One user event, handled by the closures of the current render.  A
    disabled or absent control fires nothing; "Refresh Page" reloads the
    page, which mounts the component anew. *)
Definition dispatch {JSON : JSONApi} (p : Page) (ev : Event) : Page :=
  let s := state p in
  match ev with
  | Change value =>
      if controls_disabled s then p else run (handlePhoneChange s value) p
  | Submit env =>
      if controls_disabled s then p else run (handleSubmit s env) p
  | ClickRetry env =>
      if retry_offered s && negb (controls_disabled s)
      then run (handleRetry s env) p else p
  | ClickRefresh =>
      if reset_offered s then {| state := initial; world := world p |} else p
  end.

(** The pages a run of the controller can be in: the page as mounted, and
    what any sequence of user events makes of it. *)
Inductive reachable {JSON : JSONApi} : Page -> Prop :=
| reach_mount (w : World) : reachable {| state := initial; world := w |}
| reach_event (p : Page) (ev : Event) : reachable p -> reachable (dispatch p ev).

(** Between two events no request is pending, and an error is presented
    only when the page is not redirecting: the controls are enabled
    whenever an error is presented. *)
Definition settled_page (p : Page) : Prop :=
  isLoading (state p) = false /\
  (error (state p) <> None -> isRedirecting (state p) = false).

(** ** The outcome of a run, as the properties name it *)

(** The page after a run that settled with [e] presented, [n] in the
    counter and the redirect flag [redirecting], in world [w]. *)
Definition settled (p : Page) (e : option ErrorState) (n : nat) (redirecting : bool)
    (w : World) : Page :=
  {| state := {| phoneNumber := phoneNumber (state p); error := e; isLoading := false;
                 isRedirecting := redirecting; retryCount := n |};
     world := w |}.

Definition fetch_result (env : Environment) : Completion JsVal :=
  fst (fetchRandomUser (remote env)).

(** The identity fetch of the run rejects. *)
Definition fetch_fails (env : Environment) : bool :=
  match fetch_result env with Throw _ => true | Normal _ => false end.

(** The counter a run leaves behind when it starts from a render holding
    [n]: one more when the phone number is valid and the identity fetch
    fails, zero otherwise. *)
Definition counter_after (s : State) (env : Environment) : nat :=
  if validateIranianPhone (phoneNumber s) && fetch_fails env
  then S (retryCount s) else 0.

End LoginController.

(** * Concrete records, browsers and network answers

    The inputs on which the properties below are run. *)

Module Fixtures.
Import SessionStore STORAGE_KEYS IdentityClient LoginController.

Definition working_storage (m : gmap jsstring jsstring) : Storage :=
  {| items := m; getItem_fault := None; setItem_fault := None;
     removeItem_fault := None |}.

(** A browser with a working [localStorage] holding [m]. *)
Definition browser (m : gmap jsstring jsstring) : World :=
  {| Storage_defined := true; localStorage := Some (working_storage m);
     NODE_ENV := Some (js "production") |}.

Definition user_record (first last email large medium thumbnail : option string) : JsVal :=
  let str k o := match o with Some x => [(js k, JStr (js x))] | None => [] end in
  JObj [(js "name", JObj (str "first"%string first ++ str "last"%string last));
        (js "email", default JUndefined ((fun x => JStr (js x)) <$> email));
        (js "picture", JObj (str "large"%string large ++ str "medium"%string medium
                             ++ str "thumbnail"%string thumbnail))].

(** The record used by the repository's tests. *)
Definition mockUser : JsVal :=
  user_record (Some "John"%string) (Some "Doe"%string) (Some "john.doe@example.com"%string)
    (Some "https://example.com/large.jpg"%string) (Some "https://example.com/medium.jpg"%string)
    (Some "https://example.com/thumb.jpg"%string).

(** The same record without [name.last]. *)
Definition user_without_last_name : JsVal :=
  user_record (Some "John"%string) None (Some "john.doe@example.com"%string)
    (Some "https://example.com/large.jpg"%string) (Some "https://example.com/medium.jpg"%string)
    (Some "https://example.com/thumb.jpg"%string).

(** The same record without [picture]. *)
Definition user_without_picture : JsVal :=
  JObj [(js "name", JObj [(js "first", JStr (js "John")); (js "last", JStr (js "Doe"))]);
        (js "email", JStr (js "john.doe@example.com"))].

(** The JSON body the remote endpoint answers with, for one record. *)
Definition api_body (user : JsVal) : JsVal :=
  JObj [(js "results", JArr [user]);
        (js "info", JObj [(js "seed", JStr (js "abc123")); (js "results", JNum 1 0);
                          (js "page", JNum 1 0); (js "version", JStr (js "1.4"))])].

(** A network that answers the request with status 200 and [body], and
    every avatar probe with success. *)
Definition answering (body : JsVal) : Network :=
  {| fetch_user := Normal {| ok := true; status := 200; json := Normal body |};
     fetch_head := fun _ => Normal true |}.

(** A network that answers the request with HTTP status [code]. *)
Definition failing_with_status (code : Z) : Network :=
  {| fetch_user := Normal {| ok := false; status := code; json := Normal JNull |};
     fetch_head := fun _ => Normal true |}.

(** A browser whose [localStorage] refuses every write for lack of space. *)
Definition full_browser : World :=
  {| Storage_defined := true;
     localStorage := Some
       {| items := ∅; getItem_fault := None;
          setItem_fault := Some (ThrownError
            (mkError false (js "QuotaExceededError")
                     (js "The quota has been exceeded.") None));
          removeItem_fault := None |};
     NODE_ENV := Some (js "production") |}.

(** The remote endpoint fails with status 500; navigation works. *)
Definition server_down : Environment :=
  {| remote := failing_with_status 500; router_push := Normal tt |}.

(** The remote endpoint returns the test record; navigation works. *)
Definition all_well : Environment :=
  {| remote := answering (api_body mockUser); router_push := Normal tt |}.

(** The login page just mounted, with [phone] typed in, in browser [w]. *)
Definition page_with (phone : jsstring) (w : World) : Page :=
  {| state := {| phoneNumber := phone; error := None; isLoading := false;
                 isRedirecting := false; retryCount := 0 |};
     world := w |}.

(** The error the remote endpoint's status 500 turns into. *)
Definition status_500 : Thrown :=
  ThrownError (new_ApiError (js "API request failed with status 500") (Some 500%Z)).

(** What the controller presents for it. *)
Definition server_error : ErrorState :=
  {| message := js "Server is temporarily unavailable. Please try again in a few moments.";
     type := api; retryable := true |}.

(** What the controller presents when the store refuses the record. *)
Definition storage_error : ErrorState :=
  {| message := js "Unable to save login information. Please check your browser settings and try again.";
     type := storage; retryable := true |}.

(** The login page with a valid number typed in, in a working browser and
    in one whose storage is full. *)
Definition start : Page := page_with (js "09123456789") (browser ∅).
Definition start_full : Page := page_with (js "09123456789") full_browser.

(** The input of the repository's own whitespace test for
    [normalizeIranianPhone]: tab, [09123456789], line feed. *)
Definition padded_local : jsstring := [9] ++ js "09123456789" ++ [10].

(** The record used by the repository's tests, as a [User]. *)
Definition mockUser_typed : User :=
  {| name_first := js "John"; name_last := js "Doe"; email := js "john.doe@example.com";
     picture_large := js "https://example.com/large.jpg";
     picture_medium := js "https://example.com/medium.jpg";
     picture_thumbnail := js "https://example.com/thumb.jpg" |}.

End Fixtures.

(** * Properties of the phone validator *)

Module PhoneValidatorProofs.
Import PhoneValidator PHONE_PATTERNS.

Lemma test_lits_app (l : jsstring) (r : RegExp) (s : jsstring) :
  test (map Lit l ++ r) s = true <-> exists ds, s = l ++ ds /\ test r ds = true.
Proof.
  revert s. induction l as [|c l IH]; intros s; simpl.
  - split; [intros H; exists s; auto | intros (ds & -> & H); exact H].
  - destruct s as [|d s].
    + split; [discriminate | intros (ds & H & _); discriminate].
    + rewrite andb_true_iff, IH, N.eqb_eq. split.
      * intros (-> & ds & -> & H). eauto.
      * intros (ds & [= -> ->] & H). eauto.
Qed.

Lemma test_digits (n : nat) (ds : jsstring) :
  test (replicate n Digit) ds = true <->
  length ds = n /\ Forall (fun c => isDigit c = true) ds.
Proof.
  revert ds. induction n as [|n IH]; intros [|d ds]; simpl.
  - split; auto.
  - split; [discriminate | intros [[=] _]].
  - split; [discriminate | intros [[=] _]].
  - rewrite andb_true_iff, IH, Forall_cons. split.
    + intros (Hd & Hl & Hf). auto.
    + intros ([= Hl] & Hd & Hf). auto.
Qed.

Lemma test_shape (p : string) (s : jsstring) :
  test (lits p ++ replicate 9 Digit) s = true <->
  exists ds, s = js p ++ ds /\ digits9 ds.
Proof.
  unfold lits, digits9. rewrite test_lits_app.
  split; intros (ds & Hs & H); exists ds; split; auto; now apply test_digits.
Qed.

Lemma shape_length (p : string) (s ds : jsstring) :
  s = js p ++ ds -> digits9 ds -> length s = (length (js p) + 9)%nat.
Proof. intros -> [Hl _]. rewrite length_app, Hl. reflexivity. Qed.

(** No string has two of the three shapes: their lengths are 11, 13, 14. *)
Lemma shapes_disjoint (s : jsstring) :
  ~ (local_shape s /\ plus_shape s) /\
  ~ (local_shape s /\ zero_shape s) /\
  ~ (plus_shape s /\ zero_shape s).
Proof.
  repeat split; intros [(d1 & E1 & H1) (d2 & E2 & H2)];
    pose proof (shape_length _ _ _ E1 H1) as L1;
    pose proof (shape_length _ _ _ E2 H2) as L2;
    rewrite L1 in L2; vm_compute in L2; discriminate.
Qed.

Lemma recognized_iff_some (s : jsstring) :
  recognized s <-> local_shape s \/ plus_shape s \/ zero_shape s.
Proof.
  destruct (shapes_disjoint s) as (D1 & D2 & D3).
  unfold recognized, exactly_one. tauto.
Qed.

Lemma validate_unfold (s : jsstring) :
  validateIranianPhone s =
  existsb (fun pattern => test pattern (trim s)) values.
Proof. destruct s; reflexivity. Qed.

Lemma validate_true_iff (s : jsstring) :
  validateIranianPhone s = true <-> recognized (trim s).
Proof.
  rewrite validate_unfold, recognized_iff_some.
  unfold values, STANDARD, INTERNATIONAL, COUNTRY_CODE. cbn [existsb].
  rewrite !orb_true_iff, !test_shape. unfold local_shape, plus_shape, zero_shape.
  intuition discriminate.
Qed.

(** C5.  [validateIranianPhone s] is [true] exactly when the trimmed
    input has exactly one of the three shapes [09ddddddddd],
    [+989ddddddddd], [00989ddddddddd]; it is [false] for every other
    string, the empty string included.  Being a total function to
    [bool], it has no exceptional outcome. *)
Theorem validate_recognizes_the_three_shapes (s : jsstring) :
  (validateIranianPhone s = true <-> recognized (trim s)) /\
  (validateIranianPhone s = false <-> ~ recognized (trim s)) /\
  validateIranianPhone [] = false.
Proof.
  split; [apply validate_true_iff | split; [|reflexivity]].
  rewrite <- validate_true_iff.
  destruct (validateIranianPhone s); split; congruence.
Qed.

(** ** Normalisation *)

Lemma digit_not_whitespace (c : N) : isDigit c = true -> isWhiteSpace c = false.
Proof.
  unfold isDigit, isWhiteSpace. rewrite andb_true_iff, !N.leb_le. intros [H1 H2].
  repeat match goal with
         | |- context [c =? ?k] => destruct (N.eqb_spec c k); [lia|]
         end.
  destruct (N.leb_spec 8192 c); [lia | reflexivity].
Qed.

Lemma trimStart_head (c : N) (s : jsstring) :
  isWhiteSpace c = false -> trimStart (c :: s) = c :: s.
Proof. intros H. simpl. now rewrite H. Qed.

Lemma trim_no_whitespace (s : jsstring) :
  Forall (fun c => isWhiteSpace c = false) s -> trim s = s.
Proof.
  intros H. unfold trim, trimEnd.
  assert (E : forall t, Forall (fun c => isWhiteSpace c = false) t -> trimStart t = t).
  { intros [|c t] Ht; [reflexivity|]. inversion Ht; subst. now apply trimStart_head. }
  rewrite (E s H), E, rev_involutive; [reflexivity|].
  now apply List.Forall_rev.
Qed.

Lemma digits9_no_whitespace (ds : jsstring) :
  digits9 ds -> Forall (fun c => isWhiteSpace c = false) ds.
Proof.
  intros [_ H]. eapply Forall_impl; [exact H|]. apply digit_not_whitespace.
Qed.

(** A string in one of the three shapes has no whitespace to trim. *)
Lemma trim_shape (p : string) (ds : jsstring) :
  Forall (fun c => isWhiteSpace c = false) (js p) ->
  digits9 ds -> trim (js p ++ ds) = js p ++ ds.
Proof.
  intros Hp Hd. apply trim_no_whitespace, Forall_app. split; [exact Hp|].
  now apply digits9_no_whitespace.
Qed.

Lemma recognized_trim (x : jsstring) : recognized x -> trim x = x.
Proof.
  rewrite recognized_iff_some.
  intros [(ds & -> & H)|[(ds & -> & H)|(ds & -> & H)]];
    (apply trim_shape; [|exact H]); vm_compute; repeat constructor.
Qed.

Lemma normalize_invalid (x : jsstring) :
  validateIranianPhone x = false -> normalizeIranianPhone x = x.
Proof. intros H. unfold normalizeIranianPhone. now rewrite H. Qed.

Lemma normalize_local (x ds : jsstring) :
  digits9 ds -> trim x = js "09" ++ ds -> normalizeIranianPhone x = js "09" ++ ds.
Proof.
  intros Hd E. unfold normalizeIranianPhone.
  replace (validateIranianPhone x) with true.
  - cbn [negb]. rewrite E. vm_compute. reflexivity.
  - symmetry. apply validate_true_iff, recognized_iff_some. left. exists ds. auto.
Qed.

Lemma normalize_plus (x ds : jsstring) :
  digits9 ds -> trim x = js "+989" ++ ds -> normalizeIranianPhone x = js "09" ++ ds.
Proof.
  intros Hd E. unfold normalizeIranianPhone.
  replace (validateIranianPhone x) with true.
  - cbn [negb]. rewrite E. vm_compute. reflexivity.
  - symmetry. apply validate_true_iff, recognized_iff_some. right; left. exists ds. auto.
Qed.

Lemma normalize_zero (x ds : jsstring) :
  digits9 ds -> trim x = js "00989" ++ ds -> normalizeIranianPhone x = js "09" ++ ds.
Proof.
  intros Hd E. unfold normalizeIranianPhone.
  replace (validateIranianPhone x) with true.
  - cbn [negb]. rewrite E. vm_compute. reflexivity.
  - symmetry. apply validate_true_iff, recognized_iff_some. right; right. exists ds. auto.
Qed.

(** Every valid input normalises to the canonical local form. *)
Lemma normalize_canonical (x : jsstring) :
  validateIranianPhone x = true ->
  exists ds, digits9 ds /\ normalizeIranianPhone x = js "09" ++ ds.
Proof.
  rewrite validate_true_iff, recognized_iff_some.
  intros [(ds & E & H)|[(ds & E & H)|(ds & E & H)]]; exists ds; split; auto.
  - now apply normalize_local.
  - now apply normalize_plus.
  - now apply normalize_zero.
Qed.

(** C6, as the code has it.  An invalid input is returned unchanged.  A
    valid input is trimmed first: in the local shape the result is the
    trimmed input (the input itself when it carries no surrounding
    whitespace); in the international shapes the prefix [+98] or [0098]
    of the trimmed input is replaced by a single [0]. *)
Theorem normalize_by_shape (x : jsstring) :
  (validateIranianPhone x = false -> normalizeIranianPhone x = x) /\
  (local_shape (trim x) -> normalizeIranianPhone x = trim x) /\
  (local_shape x -> normalizeIranianPhone x = x) /\
  (forall rest, plus_shape (trim x) -> trim x = js "+98" ++ rest ->
     normalizeIranianPhone x = js "0" ++ rest) /\
  (forall rest, zero_shape (trim x) -> trim x = js "0098" ++ rest ->
     normalizeIranianPhone x = js "0" ++ rest).
Proof.
  split; [apply normalize_invalid|].
  split; [intros (ds & E & H); rewrite E; now apply normalize_local|].
  split.
  { intros H. assert (T : trim x = x).
    { apply recognized_trim, recognized_iff_some. now left. }
    destruct H as (ds & E & H). rewrite E at 2. apply normalize_local; [exact H|].
    now rewrite T. }
  split.
  - intros rest (ds & E & H) E'. rewrite E in E'. injection E' as <-.
    now apply normalize_plus.
  - intros rest (ds & E & H) E'. rewrite E in E'. injection E' as <-.
    now apply normalize_zero.
Qed.

Lemma normalize_by_shape_witness :
  normalizeIranianPhone (js "invalid") = js "invalid" /\
  normalizeIranianPhone Fixtures.padded_local = js "09123456789" /\
  normalizeIranianPhone (js "09123456789") = js "09123456789" /\
  normalizeIranianPhone (js " +989123456789 ") = js "09123456789" /\
  normalizeIranianPhone (js "00989123456789") = js "09123456789".
Proof.
  assert (D : digits9 (js "123456789")) by (split; [reflexivity | repeat constructor]).
  split; [now apply (proj1 (normalize_by_shape (js "invalid")))|].
  split.
  { destruct (normalize_by_shape Fixtures.padded_local) as (_ & H & _).
    apply H. exists (js "123456789"). auto. }
  split.
  { destruct (normalize_by_shape (js "09123456789")) as (_ & _ & H & _).
    apply H. exists (js "123456789"). auto. }
  split.
  - destruct (normalize_by_shape (js " +989123456789 ")) as (_ & _ & _ & H & _).
    apply (H (js "9123456789")); [exists (js "123456789"); auto | reflexivity].
  - destruct (normalize_by_shape (js "00989123456789")) as (_ & _ & _ & _ & H).
    apply (H (js "9123456789")); [exists (js "123456789"); auto | reflexivity].
Defined.

(** C6, as stated, fails on a valid local number surrounded by
    whitespace: the result is the trimmed number, not the input. *)
Lemma normalize_trims_local_input :
  validateIranianPhone Fixtures.padded_local = true /\
  local_shape (trim Fixtures.padded_local) /\
  normalizeIranianPhone Fixtures.padded_local = js "09123456789" /\
  normalizeIranianPhone Fixtures.padded_local <> Fixtures.padded_local.
Proof.
  split; [reflexivity|]. split.
  - exists (js "123456789"). repeat split. repeat constructor.
  - split; [reflexivity | discriminate].
Qed.

(** C7.  Normalisation is idempotent on valid input. *)
Theorem normalize_idempotent (x : jsstring) :
  validateIranianPhone x = true ->
  normalizeIranianPhone (normalizeIranianPhone x) = normalizeIranianPhone x.
Proof.
  intros H. destruct (normalize_canonical x H) as (ds & Hd & ->).
  apply normalize_local; [exact Hd|].
  apply trim_shape; [vm_compute; repeat constructor | exact Hd].
Qed.

Lemma normalize_idempotent_witness :
  validateIranianPhone (js "+989123456789") = true /\
  normalizeIranianPhone (normalizeIranianPhone (js "+989123456789")) =
  normalizeIranianPhone (js "+989123456789").
Proof.
  split; [reflexivity|].
  apply (normalize_idempotent (js "+989123456789")). reflexivity.
Defined.

End PhoneValidatorProofs.

(** * The reference [JSON] carries a [User] through a round trip *)

Module ReferenceJSONProofs.
Import SessionStore ReferenceJSON.

Lemma hex_value_digit (d : N) : d < 16 -> hex_value (hex_digit d) = Some d.
Proof.
  intros H. unfold hex_value, hex_digit.
  destruct (N.ltb_spec d 10).
  - replace ((48 <=? 48 + d) && (48 + d <=? 57)) with true
      by (symmetry; apply andb_true_iff; split; apply N.leb_le; lia).
    f_equal. lia.
  - replace ((48 <=? 87 + d) && (87 + d <=? 57)) with false
      by (symmetry; apply andb_false_iff; right; apply N.leb_gt; lia).
    replace ((97 <=? 87 + d) && (87 + d <=? 102)) with true
      by (symmetry; apply andb_true_iff; split; apply N.leb_le; lia).
    f_equal. lia.
Qed.

Lemma read_u_escape (fuel : nat) (c : N) (rest acc : jsstring) :
  unit16 c ->
  read_string (S fuel) ([92; 117] ++ hex4 c ++ rest) acc = read_string fuel rest (acc ++ [c]).
Proof.
  intros H. unfold hex4. cbn [app read_string N.eqb Pos.eqb].
  assert (D : c / 4096 mod 16 < 16 /\ c / 256 mod 16 < 16 /\ c / 16 mod 16 < 16 /\ c mod 16 < 16)
    by (zify; Z.to_euclidean_division_equations; lia).
  destruct D as (D1 & D2 & D3 & D4).
  rewrite !hex_value_digit by assumption.
  do 3 f_equal. unfold unit16 in H. zify. Z.to_euclidean_division_equations. lia.
Qed.

Lemma read_literal_unit (fuel : nat) (c : N) (rest acc : jsstring) :
  c <> 34 -> c <> 92 -> 32 <= c ->
  read_string (S fuel) (c :: rest) acc = read_string fuel rest (acc ++ [c]).
Proof.
  intros H1 H2 H3. cbn [read_string].
  destruct (N.eqb_spec c 34); [contradiction|].
  destruct (N.eqb_spec c 92); [contradiction|].
  destruct (N.ltb_spec c 32); [lia | reflexivity].
Qed.


Lemma read_string_escape (n : nat) :
  forall (s : jsstring), (length s <= n)%nat ->
  forall (fuel : nat) (rest acc : jsstring),
    Forall unit16 s -> (length (escape s) < fuel)%nat ->
    read_string fuel (escape s ++ 34 :: rest) acc = Some (acc ++ s, rest).
Proof.
  induction n as [|n IH]; intros s Hn fuel rest acc Hs Hf.
  - destruct s; [|cbn in Hn; lia]. destruct fuel; [cbn in Hf; lia|].
    cbn. now rewrite app_nil_r.
  - destruct s as [|c s]; [destruct fuel; [cbn in Hf; lia|]; cbn; now rewrite app_nil_r|].
    apply Forall_cons in Hs as [Hc Hs]. cbn [length] in Hn.
    assert (IH' : forall fuel acc, (length (escape s) < fuel)%nat ->
              read_string fuel (escape s ++ 34 :: rest) acc = Some (acc ++ s, rest)).
    { intros. apply IH; auto; lia. }
    assert (SHORT : forall (e out : N) f acc,
              In (e, out) [(34, 34); (92, 92); (98, 8); (102, 12); (110, 10); (114, 13); (116, 9)] ->
              (length (escape s) < f)%nat ->
              read_string (S f) ([92; e] ++ escape s ++ 34 :: rest) acc
              = Some (acc ++ out :: s, rest)).
    { intros e out f acc0 Hin Hlt.
      assert (E : read_string (S f) ([92; e] ++ escape s ++ 34 :: rest) acc0
                  = read_string f (escape s ++ 34 :: rest) (acc0 ++ [out])).
      { cbn in Hin. destruct Hin as [H|[H|[H|[H|[H|[H|[H|[]]]]]]]];
          injection H as <- <-; reflexivity. }
      rewrite E, IH' by assumption. now rewrite <- app_assoc. }
    assert (UESC : forall f acc,
              (length (escape s) < f)%nat ->
              read_string (S f) (([92; 117] ++ hex4 c ++ escape s) ++ 34 :: rest) acc
              = Some (acc ++ c :: s, rest)).
    { intros f acc0 Hlt. rewrite <- !app_assoc.
      rewrite read_u_escape, IH' by assumption. now rewrite <- app_assoc. }
    revert Hf. cbn [escape].
    destruct (N.eqb_spec c 34) as [->|N34].
    { intros Hf. destruct fuel as [|f]; [cbn in Hf; lia|]. rewrite <- app_assoc.
      apply SHORT; [cbn; tauto | cbn in Hf; lia]. }
    destruct (N.eqb_spec c 92) as [->|N92].
    { intros Hf. destruct fuel as [|f]; [cbn in Hf; lia|]. rewrite <- app_assoc.
      apply (SHORT 92 92); [cbn; tauto | cbn in Hf; lia]. }
    destruct (N.eqb_spec c 8) as [->|N8].
    { intros Hf. destruct fuel as [|f]; [cbn in Hf; lia|]. rewrite <- app_assoc.
      apply (SHORT 98 8); [cbn; tauto | cbn in Hf; lia]. }
    destruct (N.eqb_spec c 12) as [->|N12].
    { intros Hf. destruct fuel as [|f]; [cbn in Hf; lia|]. rewrite <- app_assoc.
      apply (SHORT 102 12); [cbn; tauto | cbn in Hf; lia]. }
    destruct (N.eqb_spec c 10) as [->|N10].
    { intros Hf. destruct fuel as [|f]; [cbn in Hf; lia|]. rewrite <- app_assoc.
      apply (SHORT 110 10); [cbn; tauto | cbn in Hf; lia]. }
    destruct (N.eqb_spec c 13) as [->|N13].
    { intros Hf. destruct fuel as [|f]; [cbn in Hf; lia|]. rewrite <- app_assoc.
      apply (SHORT 114 13); [cbn; tauto | cbn in Hf; lia]. }
    destruct (N.eqb_spec c 9) as [->|N9].
    { intros Hf. destruct fuel as [|f]; [cbn in Hf; lia|]. rewrite <- app_assoc.
      apply (SHORT 116 9); [cbn; tauto | cbn in Hf; lia]. }
    destruct (N.ltb_spec c 32) as [L32|G32].
    { intros Hf. destruct fuel as [|f]; [cbn in Hf; lia|].
      apply UESC. rewrite !length_app in Hf. cbn in Hf. lia. }
    destruct (is_high_surrogate c) eqn:Hhigh.
    { destruct s as [|d s''].
      - intros Hf. destruct fuel as [|f]; [cbn in Hf; lia|].
        specialize (UESC f acc). cbn [escape] in UESC. rewrite app_nil_r in UESC.
        apply UESC. cbn in *. lia.
      - destruct (is_low_surrogate d) eqn:Hlow.
        + intros Hf. cbn [length] in Hf.
          destruct fuel as [|[|f]]; [lia | lia |].
          unfold is_low_surrogate in Hlow.
          apply andb_true_iff in Hlow as [Hl1 Hl2]. apply N.leb_le in Hl1, Hl2.
          cbn [app]. rewrite !read_literal_unit by lia.
          apply Forall_cons in Hs as [Hd Hs].
          rewrite IH; auto; [|cbn in Hn; lia | lia].
          now rewrite <- !app_assoc.
        + intros Hf. destruct fuel as [|f]; [cbn in Hf; lia|].
          apply UESC. rewrite !length_app in Hf. cbn in Hf. cbn. lia. }
    destruct (is_low_surrogate c) eqn:Hlow.
    { intros Hf. destruct fuel as [|f]; [cbn in Hf; lia|].
      apply UESC. rewrite !length_app in Hf. cbn in Hf. lia. }
    intros Hf. destruct fuel as [|f]; [cbn in Hf; lia|].
    cbn [app]. rewrite read_literal_unit by lia.
    rewrite IH' by (cbn in Hf; lia). now rewrite <- app_assoc.
Qed.

Lemma skip_ws_nonspace (c : N) (s : jsstring) :
  is_json_space c = false -> skip_ws (c :: s) = c :: s.
Proof. intros H. cbn. now rewrite H. Qed.

(** A quoted string reads back as the string. *)
Lemma read_value_string (f : nat) (s rest : jsstring) :
  Forall unit16 s ->
  read_value (S f) (quote s ++ rest) = Some (JStr s, rest).
Proof.
  intros Hs. unfold quote. cbn [app read_value].
  rewrite skip_ws_nonspace by reflexivity. cbn [N.eqb Pos.eqb].
  rewrite <- app_assoc. cbn [app].
  rewrite read_string_escape with (n := length s);
    [reflexivity | lia | assumption | rewrite length_app; cbn; lia].
Qed.

(** One member of an object, followed by a comma. *)
Lemma read_member_more (f : nat) (k text : jsstring) (v : JsVal)
    (rest : jsstring) (acc : list (jsstring * JsVal)) :
  Forall unit16 k ->
  read_value f (text ++ 44 :: rest) = Some (v, 44 :: rest) ->
  read_members (S f) (quote k ++ 58 :: text ++ 44 :: rest) acc
  = read_members f rest (set_prop k v acc).
Proof.
  intros Hk Hv. unfold quote. cbn [app read_members].
  rewrite skip_ws_nonspace by reflexivity.
  rewrite <- app_assoc. cbn [app].
  rewrite read_string_escape with (n := length k);
    [| lia | assumption | rewrite length_app; cbn; lia].
  cbn [app]. rewrite skip_ws_nonspace by reflexivity.
  rewrite Hv. now rewrite skip_ws_nonspace by reflexivity.
Qed.

(** The last member of an object, followed by the closing brace. *)
Lemma read_member_last (f : nat) (k text : jsstring) (v : JsVal)
    (rest : jsstring) (acc : list (jsstring * JsVal)) :
  Forall unit16 k ->
  read_value f (text ++ 125 :: rest) = Some (v, 125 :: rest) ->
  read_members (S f) (quote k ++ 58 :: text ++ 125 :: rest) acc
  = Some (JObj (set_prop k v acc), rest).
Proof.
  intros Hk Hv. unfold quote. cbn [app read_members].
  rewrite skip_ws_nonspace by reflexivity.
  rewrite <- app_assoc. cbn [app].
  rewrite read_string_escape with (n := length k);
    [| lia | assumption | rewrite length_app; cbn; lia].
  cbn [app]. rewrite skip_ws_nonspace by reflexivity.
  rewrite Hv. now rewrite skip_ws_nonspace by reflexivity.
Qed.

(** An object with at least one member. *)
Lemma read_object (f : nat) (k members : jsstring) :
  read_value (S f) (123 :: quote k ++ members)
  = read_members f (quote k ++ members) [].
Proof.
  cbn [read_value]. rewrite skip_ws_nonspace by reflexivity. cbn [N.eqb Pos.eqb].
  unfold quote. cbn [app]. now rewrite skip_ws_nonspace by reflexivity.
Qed.

Lemma stringify_User (u : User) :
  stringify (User_value u) =
  123 :: quote (js "name") ++ 58 ::
    (123 :: quote (js "first") ++ 58 :: quote (name_first u) ++ 44 ::
            quote (js "last") ++ 58 :: quote (name_last u) ++ [125]) ++ 44 ::
  quote (js "email") ++ 58 :: quote (email u) ++ 44 ::
  quote (js "picture") ++ 58 ::
    (123 :: quote (js "large") ++ 58 :: quote (picture_large u) ++ 44 ::
            quote (js "medium") ++ 58 :: quote (picture_medium u) ++ 44 ::
            quote (js "thumbnail") ++ 58 :: quote (picture_thumbnail u) ++ [125]) ++ [125].
Proof.
  unfold stringify, User_value. cbn [serialize default join].
  change (js "{") with [123]. change (js "}") with [125].
  change (js ":") with [58]. change (js ",") with [44].
  cbn [app]. repeat (rewrite <- ?app_assoc; cbn [app]). reflexivity.
Qed.

Lemma ascii_units (s : string) : Forall unit16 (js s).
Proof.
  unfold js. induction (list_ascii_of_string s) as [|a l IH]; constructor; auto.
  unfold unit16. pose proof (N_ascii_bounded a). lia.
Qed.

Lemma read_name_object (f : nat) (first last rest : jsstring) :
  Forall unit16 first -> Forall unit16 last ->
  read_value (S (S (S (S f))))
    ((123 :: quote (js "first") ++ 58 :: quote first ++ 44 ::
             quote (js "last") ++ 58 :: quote last ++ [125]) ++ rest)
  = Some (JObj [(js "first", JStr first); (js "last", JStr last)], rest).
Proof.
  intros H1 H2. cbn [app]. repeat (rewrite <- ?app_assoc; cbn [app]).
  rewrite read_object.
  rewrite (read_member_more _ _ _ (JStr first)), (read_member_last _ _ _ (JStr last))
    by auto using ascii_units, read_value_string.
  reflexivity.
Qed.

Lemma read_picture_object (f : nat) (large medium thumbnail rest : jsstring) :
  Forall unit16 large -> Forall unit16 medium -> Forall unit16 thumbnail ->
  read_value (S (S (S (S (S f)))))
    ((123 :: quote (js "large") ++ 58 :: quote large ++ 44 ::
             quote (js "medium") ++ 58 :: quote medium ++ 44 ::
             quote (js "thumbnail") ++ 58 :: quote thumbnail ++ [125]) ++ rest)
  = Some (JObj [(js "large", JStr large); (js "medium", JStr medium);
                (js "thumbnail", JStr thumbnail)], rest).
Proof.
  intros H1 H2 H3. cbn [app]. repeat (rewrite <- ?app_assoc; cbn [app]).
  rewrite read_object.
  rewrite (read_member_more _ _ _ (JStr large)), (read_member_more _ _ _ (JStr medium)),
    (read_member_last _ _ _ (JStr thumbnail))
    by auto using ascii_units, read_value_string.
  reflexivity.
Qed.

Lemma parse_stringify_User (u : User) :
  well_formed u -> parse (stringify (User_value u)) = Some (User_value u).
Proof.
  intros (H1 & H2 & H3 & H4 & H5 & H6). rewrite stringify_User. unfold parse.
  match goal with |- context [read_value (2 * length ?t + 2)] => set (text := t) end.
  assert (Hfuel : exists k, (2 * length text + 2 = 9 + k)%nat).
  { assert (4 <= length text)%nat.
    { subst text. cbn [length]. rewrite length_app. unfold quote at 1.
      rewrite !length_app. cbn [length]. lia. }
    exists (2 * length text + 2 - 9)%nat. lia. }
  destruct Hfuel as [k ->]. subst text. cbn [Nat.add].
  rewrite read_object.
  rewrite (read_member_more _ _ _ (JObj [(js "first", JStr (name_first u));
                                         (js "last", JStr (name_last u))]));
    [| apply ascii_units | now apply read_name_object].
  rewrite (read_member_more _ _ _ (JStr (email u)));
    [| apply ascii_units | now apply read_value_string].
  rewrite (read_member_last _ _ _
             (JObj [(js "large", JStr (picture_large u));
                    (js "medium", JStr (picture_medium u));
                    (js "thumbnail", JStr (picture_thumbnail u))]));
    [| apply ascii_units | now apply read_picture_object].
  reflexivity.
Qed.

End ReferenceJSONProofs.

(** * Evaluating guards *)

Module JsProofs.

Lemma get_prop_truthy (v : JsVal) (k : string) :
  truthy v = true -> get_prop v k = Normal (prop v k).
Proof. destruct v; try discriminate; reflexivity. Qed.

Lemma get_prop_defined (v : JsVal) (k : string) :
  v <> JNull -> v <> JUndefined -> get_prop v k = Normal (prop v k).
Proof. destruct v; try congruence; reflexivity. Qed.

Lemma missing_defined {W} (v : JsVal) (k : string) (w : W) :
  v <> JNull -> v <> JUndefined ->
  missing v k w = (Normal (negb (truthy (prop v k))), w).
Proof. intros H1 H2. unfold missing, bind, lift, ret. now rewrite get_prop_defined. Qed.

Lemma has_eval (v : JsVal) (k : string) {W} (w : W) :
  truthy v = true -> has v k w = (Normal (truthy (prop v k)), w).
Proof. intros H. unfold has, bind, lift, ret. now rewrite get_prop_truthy. Qed.

Lemma missing_eval (v : JsVal) (k : string) {W} (w : W) :
  truthy v = true -> missing v k w = (Normal (negb (truthy (prop v k))), w).
Proof. intros H. unfold missing, bind, lift, ret. now rewrite get_prop_truthy. Qed.

Lemma string_at_eval (v : JsVal) (k : string) {W} (w : W) :
  truthy v = true -> string_at v k w = (Normal (typeof_string (prop v k)), w).
Proof. intros H. unfold string_at, bind, lift, ret. now rewrite get_prop_truthy. Qed.

Lemma string_at2_eval (v : JsVal) (k1 k2 : string) {W} (w : W) :
  truthy v = true -> truthy (prop v k1) = true ->
  string_at2 v k1 k2 w = (Normal (typeof_string (prop (prop v k1) k2)), w).
Proof.
  intros H1 H2. unfold string_at2, bind, lift, ret.
  now rewrite (get_prop_truthy v), (get_prop_truthy (prop v k1)).
Qed.

Lemma andM_eval {W} (a c : M W bool) (b : bool) (w : W) :
  a w = (Normal b, w) -> andM a c w = if b then c w else (Normal false, w).
Proof. intros H. unfold andM, bind. rewrite H. now destruct b. Qed.

Lemma orM_eval {W} (a c : M W bool) (b : bool) (w : W) :
  a w = (Normal b, w) -> orM a c w = if b then (Normal true, w) else c w.
Proof. intros H. unfold orM, bind. rewrite H. now destruct b. Qed.

End JsProofs.

(** * Properties of the session store *)

Module SessionStoreProofs.
Import SessionStore STORAGE_KEYS JsProofs.

Lemma expected_structure_eval (u : JsVal) (w : World) :
  expected_structure u w = (Normal (structure_ok u), w).
Proof.
  unfold expected_structure, structure_ok.
  rewrite (andM_eval _ _ (truthy u)) by reflexivity.
  destruct (truthy u) eqn:Hu; [|reflexivity].
  rewrite (andM_eval _ _ _ _ (has_eval _ _ _ Hu)).
  destruct (truthy (prop u "name")) eqn:Hn; [|reflexivity].
  rewrite (andM_eval _ _ _ _ (string_at2_eval _ _ _ _ Hu Hn)).
  destruct (typeof_string (prop (prop u "name") "first")); [|reflexivity].
  rewrite (andM_eval _ _ _ _ (string_at2_eval _ _ _ _ Hu Hn)).
  destruct (typeof_string (prop (prop u "name") "last")); [|reflexivity].
  rewrite (andM_eval _ _ _ _ (string_at_eval _ _ _ Hu)).
  destruct (typeof_string (prop u "email")); [|reflexivity].
  rewrite (andM_eval _ _ _ _ (has_eval _ _ _ Hu)).
  destruct (truthy (prop u "picture")) eqn:Hp; [|reflexivity].
  rewrite (andM_eval _ _ _ _ (string_at2_eval _ _ _ _ Hu Hp)).
  destruct (typeof_string (prop (prop u "picture") "large")); [|reflexivity].
  rewrite (andM_eval _ _ _ _ (string_at2_eval _ _ _ _ Hu Hp)).
  destruct (typeof_string (prop (prop u "picture") "medium")); [|reflexivity].
  rewrite (string_at2_eval _ _ _ _ Hu Hp). reflexivity.
Qed.

Lemma string_leaf1 (u : JsVal) (k : string) :
  string_leaf u [k] <-> typeof_string (prop u k) = true.
Proof.
  unfold string_leaf, prop. cbn [foldl mbind option_bind].
  destruct (field u k) as [[]|]; cbn; split;
    try discriminate; try (intros [s [=]]); eauto.
Qed.

Lemma string_leaf2 (u : JsVal) (k1 k2 : string) :
  string_leaf u [k1; k2] <-> typeof_string (prop (prop u k1) k2) = true.
Proof.
  unfold string_leaf, prop. cbn [foldl mbind option_bind].
  destruct (field u k1) as [x|]; cbn.
  - destruct (field x k2) as [[]|]; cbn; split;
      try discriminate; try (intros [s [=]]); eauto.
  - split; [intros [s [=]] | discriminate].
Qed.

Lemma string_prop_truthy (v : JsVal) (k : string) :
  typeof_string (prop v k) = true -> truthy v = true.
Proof. destruct v; try discriminate; reflexivity. Qed.

Lemma structure_ok_iff (u : JsVal) : structure_ok u = true <-> UserRecord u.
Proof.
  unfold UserRecord, structure_ok.
  rewrite !string_leaf1, !string_leaf2, !andb_true_iff. split.
  - tauto.
  - intros (H1 & H2 & H3 & H4 & H5 & H6).
    pose proof (string_prop_truthy _ _ H1).
    pose proof (string_prop_truthy _ _ H3).
    pose proof (string_prop_truthy _ _ H4). tauto.
Qed.

(** ** [saveUserToStorage] *)

Lemma save_guard_eval (u : JsVal) (w : World) :
  orM (ret (negb (truthy u)))
      (orM (missing u "name") (orM (missing u "email") (missing u "picture"))) w
  = (Normal (toplevel_missing u), w).
Proof.
  unfold toplevel_missing.
  rewrite (orM_eval _ _ (negb (truthy u))) by reflexivity.
  destruct (truthy u) eqn:Hu; [|reflexivity]. cbn [negb orb].
  rewrite (orM_eval _ _ _ _ (missing_eval _ _ _ Hu)).
  destruct (truthy (prop u "name")); [|reflexivity]. cbn [negb orb].
  rewrite (orM_eval _ _ _ _ (missing_eval _ _ _ Hu)).
  destruct (truthy (prop u "email")); [|reflexivity]. cbn [negb orb].
  now rewrite (missing_eval _ _ _ Hu).
Qed.

Lemma save_rethrow_throws (t : Thrown) (w : World) :
  exists t', save_rethrow t w = (Throw t', w).
Proof.
  destruct t as [e|v]; cbn.
  - repeat match goal with |- context [if ?b then _ else _] => destruct b end; eauto.
  - eauto.
Qed.

Lemma save_rethrow_invalid (w : World) :
  save_rethrow invalid_user_data w = (Throw invalid_user_data, w).
Proof. reflexivity. Qed.

Section WithJSON.
Context {JSON : JSONApi}.

Lemma save_inv (u : JsVal) (w w' : World) :
  saveUserToStorage u w = (Normal tt, w') ->
  exists st,
    Storage_defined w = true /\ localStorage w = Some st /\
    toplevel_missing u = false /\ setItem_fault st = None /\
    w' = written (JSON_stringify u) st w /\
    (NODE_ENV w <> Some (js "test") ->
     getItem_fault st = None /\ JSON_stringify u <> []).
Proof.
  unfold saveUserToStorage, try_catch.
  match goal with |- context [match ?b w with _ => _ end] => set (body := b) end.
  destruct (body w) as [[[]|t] w1] eqn:E.
  2: { destruct (save_rethrow_throws t w1) as [t' ->]. discriminate. }
  intros [= <-]. revert E. unfold body. clear body.
  unfold bind at 1. unfold storage_missing at 1.
  destruct w as [sd ls env]. cbn [Storage_defined localStorage].
  destruct sd; [|discriminate]. destruct ls as [st|]; [|discriminate].
  cbn [negb orb]. rewrite bool_decide_eq_false_2 by discriminate.
  unfold bind at 1. rewrite save_guard_eval.
  destruct (toplevel_missing u); [discriminate|].
  unfold bind at 1. unfold setItem at 1. cbn [localStorage].
  destruct (setItem_fault st) eqn:Hset; [discriminate|].
  unfold bind at 1. unfold not_test_env at 1. cbn [NODE_ENV with_storage].
  intros H. exists st. repeat split; auto.
  - revert H. destruct (bool_decide _); cbn [negb].
    + now intros [= <-].
    + unfold bind, getItem. cbn [localStorage with_items with_storage getItem_fault items].
      destruct (getItem_fault st); lazy beta iota zeta; [discriminate|].
      rewrite lookup_insert_eq.
      destruct (JSON_stringify u); [discriminate|].
      destruct (eqb _ _); [|discriminate]. now intros [= <-].
  - revert H. rewrite bool_decide_eq_false_2 by assumption. cbn [negb].
    unfold bind, getItem. cbn [localStorage with_items with_storage getItem_fault].
    destruct (getItem_fault st); lazy beta iota zeta; [discriminate | reflexivity].
  - revert H. rewrite bool_decide_eq_false_2 by assumption. cbn [negb].
    unfold bind, getItem. cbn [localStorage with_items with_storage getItem_fault items].
    destruct (getItem_fault st); lazy beta iota zeta; [discriminate|].
    rewrite lookup_insert_eq. intros H E. rewrite E in H. discriminate.
Qed.

(** C3, as the code has it.  With the storage present, a record whose
    [user], [user.name], [user.email] or [user.picture] is falsy
    (absent, [null], empty, [0] or [false]) makes [saveUserToStorage]
    throw the error "Invalid user data: missing required fields", and
    the world, stored items included, is unchanged. *)
Theorem save_rejects_missing_toplevel (u : JsVal) (w : World) :
  Storage_defined w = true -> localStorage w <> None ->
  toplevel_missing u = true ->
  saveUserToStorage u w = (Throw invalid_user_data, w).
Proof.
  intros Hd Hs Hu.
  unfold saveUserToStorage, try_catch.
  unfold bind at 1. unfold storage_missing at 1.
  rewrite Hd, bool_decide_eq_false_2 by assumption. cbn [negb orb].
  unfold bind at 1. rewrite save_guard_eval, Hu. reflexivity.
Qed.

(** ** [getUserFromStorage] *)

(** Runs [getUserFromStorage] up to the result of [getItem], in a world
    whose storage is present and readable. *)
Ltac load_prefix Hd Hs Hg Hi :=
  unfold getUserFromStorage, try_catch, bind, storage_missing, getItem;
  lazy beta iota zeta; rewrite Hd, Hs; cbn [negb orb];
  rewrite bool_decide_eq_false_2 by discriminate;
  lazy beta iota zeta; rewrite Hs; lazy beta iota zeta;
  rewrite Hg; lazy beta iota zeta; rewrite Hi; lazy beta iota zeta.

Lemma load_never_throws (w : World) :
  exists r w', getUserFromStorage w = (Normal r, w').
Proof.
  unfold getUserFromStorage, try_catch.
  match goal with |- context [match ?b w with _ => _ end] => destruct (b w) as [[r|t] w1] end.
  - eauto.
  - unfold bind, try_catch.
    destruct (removeItem USER_DATA w1) as [[[]|t'] w2]; cbn; eauto.
Qed.

Lemma load_valid (w : World) (st : Storage) (content : jsstring) (v : JsVal) :
  Storage_defined w = true -> localStorage w = Some st ->
  getItem_fault st = None ->
  items st !! USER_DATA = Some content ->
  JSON_parse content = Some v -> UserRecord v ->
  getUserFromStorage w = (Normal (Some v), w).
Proof.
  intros Hd Hs Hg Hi Hp Hv.
  assert (content <> []) as Hne.
  { intros ->. rewrite JSON_parse_empty in Hp. discriminate. }
  load_prefix Hd Hs Hg Hi.
  destruct content as [|c content]; [congruence|].
  rewrite Hp. unfold ret at 1. rewrite expected_structure_eval.
  apply structure_ok_iff in Hv. now rewrite Hv.
Qed.

Lemma load_absent (w : World) (st : Storage) :
  Storage_defined w = true -> localStorage w = Some st ->
  getItem_fault st = None ->
  items st !! USER_DATA = None ->
  getUserFromStorage w = (Normal None, w).
Proof.
  intros Hd Hs Hg Hi.
  load_prefix Hd Hs Hg Hi. reflexivity.
Qed.

Lemma load_empty (w : World) (st : Storage) :
  Storage_defined w = true -> localStorage w = Some st ->
  getItem_fault st = None ->
  items st !! USER_DATA = Some ([] : jsstring) ->
  getUserFromStorage w = (Normal None, w).
Proof.
  intros Hd Hs Hg Hi.
  load_prefix Hd Hs Hg Hi. reflexivity.
Qed.

Lemma load_corrupt (w : World) (st : Storage) (content : jsstring) :
  Storage_defined w = true -> localStorage w = Some st ->
  getItem_fault st = None -> removeItem_fault st = None ->
  items st !! USER_DATA = Some content -> content <> [] ->
  corrupt content ->
  getUserFromStorage w = (Normal None, cleared st w).
Proof.
  intros Hd Hs Hg Hr Hi Hne Hc.
  load_prefix Hd Hs Hg Hi.
  destruct content as [|c content]; [congruence|].
  destruct Hc as [Hp|(v & Hp & Hv)]; rewrite Hp.
  - unfold throw_Error, throw, try_catch, removeItem. lazy beta iota zeta.
    rewrite Hs. lazy beta iota zeta. rewrite Hr. reflexivity.
  - unfold ret at 1. rewrite expected_structure_eval.
    rewrite <- structure_ok_iff in Hv. apply not_true_is_false in Hv. rewrite Hv.
    unfold removeItem. lazy beta iota zeta.
    rewrite Hs. lazy beta iota zeta. rewrite Hr. reflexivity.
Qed.

Lemma load_after_clear (w : World) (st : Storage) :
  Storage_defined w = true -> localStorage w = Some st ->
  getItem_fault st = None ->
  stored (cleared st w) = None /\
  getUserFromStorage (cleared st w) = (Normal None, cleared st w).
Proof.
  intros Hd Hs Hg. split; [apply lookup_delete_eq|].
  eapply load_absent; [exact Hd | reflexivity | exact Hg | apply lookup_delete_eq].
Qed.

(** Closes a goal [exists w', c = (Normal None, w') /\ (w' = _ \/ w' = _)]
    once [c] has been run. *)
Ltac settle :=
  eexists; split; [reflexivity | first [left; reflexivity | right; reflexivity]].

Lemma load_corrupt_any (w : World) (st : Storage) (content : jsstring) :
  Storage_defined w = true -> localStorage w = Some st ->
  items st !! USER_DATA = Some content ->
  content = [] \/ corrupt content ->
  exists w', getUserFromStorage w = (Normal None, w') /\ (w' = w \/ w' = cleared st w).
Proof.
  intros Hd Hs Hi Hc.
  unfold getUserFromStorage, try_catch, bind, storage_missing, getItem.
  lazy beta iota zeta. rewrite Hd, Hs. cbn [negb orb].
  rewrite bool_decide_eq_false_2 by discriminate.
  lazy beta iota zeta. rewrite Hs. lazy beta iota zeta.
  unfold removeItem, cleared. rewrite Hi.
  destruct (getItem_fault st) as [t|]; lazy beta iota zeta.
  - rewrite Hs. destruct (removeItem_fault st); lazy beta iota zeta; settle.
  - destruct content as [|c content]; [settle|].
    destruct Hc as [[=]|[Hp|(v & Hp & Hv)]]; rewrite Hp.
    + unfold throw_Error, throw. lazy beta iota zeta. rewrite Hs.
      destruct (removeItem_fault st); lazy beta iota zeta; settle.
    + unfold ret at 1. lazy beta iota zeta. rewrite expected_structure_eval.
      rewrite <- structure_ok_iff in Hv. apply not_true_is_false in Hv. rewrite Hv.
      lazy beta iota zeta. rewrite Hs.
      destruct (removeItem_fault st) eqn:Hr; lazy beta iota zeta; [|settle].
      rewrite Hs. lazy beta iota zeta. rewrite Hr. settle.
Qed.

(** What [getUserFromStorage] returns is the parsed stored content, and
    has the six string leaves. *)
Lemma load_returns (w w' : World) (u : JsVal) :
  getUserFromStorage w = (Normal (Some u), w') ->
  w' = w /\ UserRecord u /\
  exists st content,
    localStorage w = Some st /\ items st !! USER_DATA = Some content /\
    JSON_parse content = Some u.
Proof.
  unfold getUserFromStorage, try_catch, bind, storage_missing, getItem.
  lazy beta iota zeta.
  destruct (negb (Storage_defined w) || bool_decide (localStorage w = None));
    lazy beta iota zeta; [discriminate|].
  destruct (localStorage w) as [st|] eqn:Hs; lazy beta iota zeta.
  2: { unfold removeItem. rewrite Hs. discriminate. }
  destruct (getItem_fault st); lazy beta iota zeta.
  { unfold removeItem. rewrite Hs.
    destruct (removeItem_fault st); lazy beta iota zeta; discriminate. }
  destruct (items st !! USER_DATA) as [[|c content]|] eqn:Hi; lazy beta iota zeta;
    try discriminate.
  destruct (JSON_parse (c :: content)) as [v|] eqn:Hp.
  2: { unfold throw_Error, throw, removeItem. lazy beta iota zeta. rewrite Hs.
       destruct (removeItem_fault st); lazy beta iota zeta; discriminate. }
  unfold ret at 1. lazy beta iota zeta. rewrite expected_structure_eval.
  destruct (structure_ok v) eqn:Hv; lazy beta iota zeta.
  - intros [= <- <-]. split; [reflexivity|]. split; [now apply structure_ok_iff|].
    exists st, (c :: content). auto.
  - unfold removeItem. rewrite Hs.
    destruct (removeItem_fault st) eqn:Hr; lazy beta iota zeta; [|discriminate].
    rewrite Hs. lazy beta iota zeta. rewrite Hr. discriminate.
Qed.

(** The same holds of the call that follows. *)
Lemma load_corrupt_twice (w : World) (st : Storage) (content : jsstring) :
  Storage_defined w = true -> localStorage w = Some st ->
  items st !! USER_DATA = Some content ->
  content = [] \/ corrupt content ->
  exists w' w'',
    getUserFromStorage w = (Normal None, w') /\
    getUserFromStorage w' = (Normal None, w'').
Proof.
  intros Hd Hs Hi Hc.
  destruct (load_corrupt_any w st content Hd Hs Hi Hc) as (w' & E & [->| ->]).
  - exists w, w. split; exact E.
  - exists (cleared st w).
    destruct (load_never_throws (cleared st w)) as ([u|] & w2 & E2).
    + apply load_returns in E2 as (_ & _ & st' & content' & [= <-] & Hi' & _).
      cbn [items with_items] in Hi'. rewrite lookup_delete_eq in Hi'. discriminate.
    + exists w2. split; assumption.
Qed.

(** C4, as the code has it.  [getUserFromStorage] never throws, and what
    it returns has the six string leaves.  A stored content that does not
    parse, or parses to a value failing the UserRecord invariant, makes it
    return [null], and the next call returns [null] again, whatever the
    storage refuses.  When the content is not empty and the storage is
    reachable, the record is removed; an empty stored content is left in
    place. *)
Theorem load_clears_corrupt_record (w : World) :
  (exists r w', getUserFromStorage w = (Normal r, w')) /\
  (forall u w', getUserFromStorage w = (Normal (Some u), w') -> UserRecord u) /\
  (forall st content,
     Storage_defined w = true -> localStorage w = Some st ->
     items st !! USER_DATA = Some content ->
     corrupt content ->
     exists w' w'',
       getUserFromStorage w = (Normal None, w') /\
       getUserFromStorage w' = (Normal None, w'')) /\
  (forall st content,
     Storage_defined w = true -> localStorage w = Some st ->
     getItem_fault st = None -> removeItem_fault st = None ->
     items st !! USER_DATA = Some content -> content <> [] ->
     corrupt content ->
     getUserFromStorage w = (Normal None, cleared st w) /\
     stored (cleared st w) = None /\
     getUserFromStorage (cleared st w) = (Normal None, cleared st w)) /\
  (forall st,
     Storage_defined w = true -> localStorage w = Some st ->
     getItem_fault st = None ->
     items st !! USER_DATA = Some ([] : jsstring) ->
     getUserFromStorage w = (Normal None, w)).
Proof.
  split; [apply load_never_throws|].
  split; [intros u w' H; now apply load_returns in H|].
  split; [intros st content Hd Hs Hi Hc; apply (load_corrupt_twice w st content); auto|].
  split.
  - intros st content Hd Hs Hg Hr Hi Hne Hc.
    split; [now apply (load_corrupt w st content)|].
    now apply load_after_clear.
  - intros st. apply load_empty.
Qed.

(** After a successful save of a record that the platform's JSON functions
    carry through a round trip, the record is read back.  The store must
    answer the read: outside the test environment the read-back inside
    [saveUserToStorage] has checked that already. *)
Lemma load_after_save_on_platform (u : JsVal) (w w' : World) :
  UserRecord u ->
  JSON_parse (JSON_stringify u) = Some u ->
  NODE_ENV w <> Some (js "test") \/
    (exists st, localStorage w = Some st /\ getItem_fault st = None) ->
  saveUserToStorage u w = (Normal tt, w') ->
  getUserFromStorage w' = (Normal (Some u), w').
Proof.
  intros Hu Hrt Henv Hsave.
  destruct (save_inv u w w' Hsave) as (st & Hd & Hs & _ & _ & -> & Hverify).
  assert (Hg : getItem_fault st = None).
  { destruct Henv as [Hprod|(st' & Hs' & Hg)].
    - now apply Hverify.
    - congruence. }
  eapply load_valid; [exact Hd | reflexivity | exact Hg | | exact Hrt | exact Hu].
  apply lookup_insert_eq.
Qed.

End WithJSON.

(** ** Concrete cases *)

Import Fixtures.
Import ReferenceJSON.

Lemma User_value_is_UserRecord (u : User) : UserRecord (User_value u).
Proof. now apply structure_ok_iff. Qed.


Lemma mockUser_is_UserRecord : UserRecord mockUser.
Proof. now apply structure_ok_iff. Qed.

Lemma save_rejects_missing_toplevel_witness :
  saveUserToStorage user_without_picture (browser ∅) = (Throw invalid_user_data, browser ∅).
Proof.
  apply (save_rejects_missing_toplevel user_without_picture (browser ∅));
    [reflexivity | discriminate | reflexivity].
Defined.

(** C3, as stated, fails on a record whose top-level fields are present
    but which lacks the leaf [name.last]: it is written to the storage. *)
Lemma save_persists_record_without_last_name :
  ~ UserRecord user_without_last_name /\
  saveUserToStorage user_without_last_name (browser ∅) =
    (Normal tt, browser {[ USER_DATA := stringify user_without_last_name ]}) /\
  stored (browser {[ USER_DATA := stringify user_without_last_name ]}) =
    Some (stringify user_without_last_name).
Proof.
  split; [rewrite <- structure_ok_iff; discriminate|].
  split; [vm_compute; reflexivity | reflexivity].
Qed.

Lemma cleared_browser (m : gmap jsstring jsstring) :
  cleared (working_storage m) (browser m) = browser (delete USER_DATA m).
Proof. reflexivity. Qed.

Lemma load_clears_corrupt_record_witness :
  corrupt (js "invalid json") /\
  getUserFromStorage (browser {[ USER_DATA := js "invalid json" ]}) =
    (Normal None, browser ∅) /\
  getUserFromStorage (browser ∅) = (Normal None, browser ∅).
Proof.
  assert (C : corrupt (js "invalid json")) by (left; reflexivity).
  split; [exact C|].
  destruct (load_clears_corrupt_record (browser {[ USER_DATA := js "invalid json" ]}))
    as (_ & _ & _ & H & _).
  destruct (H (working_storage {[ USER_DATA := js "invalid json" ]}) (js "invalid json"))
    as (H1 & _ & H2);
    try reflexivity; [discriminate | exact C |].
  rewrite cleared_browser, delete_singleton_eq in H1, H2. auto.
Defined.

(** C4, as stated, fails on an empty stored content: it does not parse,
    [null] is returned, and the record stays in the storage. *)
Lemma load_keeps_empty_record :
  JSON_parse [] = None /\
  getUserFromStorage (browser {[ USER_DATA := [] ]}) =
    (Normal None, browser {[ USER_DATA := [] ]}) /\
  stored (browser {[ USER_DATA := [] ]}) = Some [].
Proof. repeat split. Qed.


End SessionStoreProofs.


(** * Properties of the identity client *)

Module IdentityClientProofs.
Import SessionStore IdentityClient JsProofs.

Lemma fetch_guard_eval (user : JsVal) (net : Network) :
  user <> JNull -> user <> JUndefined ->
  orM (missing user "name") (orM (missing user "email") (missing user "picture")) net
  = (Normal (fields_missing user), net).
Proof.
  intros H1 H2. unfold fields_missing.
  rewrite (orM_eval _ _ _ _ (missing_defined _ _ _ H1 H2)).
  destruct (truthy (prop user "name")); [|reflexivity]. cbn [negb orb].
  rewrite (orM_eval _ _ _ _ (missing_defined _ _ _ H1 H2)).
  destruct (truthy (prop user "email")); [|reflexivity]. cbn [negb orb].
  now rewrite (missing_defined _ _ _ H1 H2).
Qed.


Import Fixtures.



End IdentityClientProofs.


(** * Properties of the login controller *)

Module LoginControllerProofs.
Import PhoneValidator SessionStore IdentityClient LoginController.

Section WithJSON.
Context {JSON : JSONApi}.

Lemma valid_phone_not_blank (phone : jsstring) :
  validateIranianPhone phone = true -> trim phone <> [].
Proof.
  rewrite PhoneValidatorProofs.validate_unfold. intros H E. rewrite E in H. discriminate.
Qed.

Lemma validateForm_valid (r : State) (p : Page) :
  validateIranianPhone (phoneNumber r) = true -> validateForm r p = (Normal true, p).
Proof.
  intros H. unfold validateForm. pose proof (valid_phone_not_blank _ H) as Hne.
  destruct (trim (phoneNumber r)); [congruence|]. now rewrite H.
Qed.

Lemma present_failure_eval (r : State) (err : Thrown) (p : Page) :
  exists e,
    present_failure r err p =
      (Normal tt,
       {| state := {| phoneNumber := phoneNumber (state p); error := Some e;
                      isLoading := isLoading (state p);
                      isRedirecting := isRedirecting (state p);
                      retryCount := S (retryCount r) |};
          world := world p |}) /\
    retryable e = true.
Proof.
  unfold present_failure. rewrite Nat.add_1_r.
  destruct err as [e|v]; cbn [bind setRetryCount set_state];
    repeat match goal with |- context [if ?b then _ else _] => destruct b end;
    eexists; split; reflexivity.
Qed.

Lemma submit_fetch_failure (r : State) (env : Environment) (t : Thrown) (p : Page) :
  validateIranianPhone (phoneNumber r) = true ->
  fetch_result env = Throw t ->
  exists e,
    handleSubmit r env p = (Normal tt, settled p (Some e) (S (retryCount r))
                                         (isRedirecting (state p)) (world p)) /\
    retryable e = true.
Proof.
  intros Hv Hf. unfold handleSubmit.
  unfold bind at 1. unfold clearError, bind at 1. cbn [setError set_state setRetryCount].
  unfold bind at 1. rewrite (validateForm_valid _ _ Hv). cbn [negb].
  unfold bind at 1. cbn [setIsLoading set_state state world].
  unfold try_finally, try_catch at 1.
  unfold bind at 1, await_fetchRandomUser, lift. fold (fetch_result env). rewrite Hf.
  match goal with |- context [present_failure r t ?q] =>
    destruct (present_failure_eval r t q) as (e & -> & He) end.
  exists e. split; [reflexivity | exact He].
Qed.

Lemma submit_validation_failure (r : State) (env : Environment) (p : Page) :
  validateIranianPhone (phoneNumber r) = false ->
  exists e,
    handleSubmit r env p =
      (Normal tt,
       {| state := {| phoneNumber := phoneNumber (state p); error := Some e;
                      isLoading := isLoading (state p);
                      isRedirecting := isRedirecting (state p); retryCount := 0 |};
          world := world p |}) /\
    retryable e = false /\ type e = validation.
Proof.
  intros Hv. unfold handleSubmit.
  unfold bind at 1. unfold clearError, bind at 1. cbn [setError set_state setRetryCount].
  unfold bind at 1. unfold validateForm. rewrite Hv. cbn [negb].
  destruct (trim (phoneNumber r)); cbn; eexists; repeat split.
Qed.

Lemma submit_fetched (r : State) (env : Environment) (u : JsVal) (p : Page) :
  validateIranianPhone (phoneNumber r) = true ->
  fetch_result env = Normal u ->
  exists e redirecting w,
    handleSubmit r env p = (Normal tt, settled p e 0 redirecting w) /\
    ((e = None /\ redirecting = true) \/
     (is_retryable e = true /\
      (redirecting = false \/ redirecting = isRedirecting (state p)))).
Proof.
  intros Hv Hf. unfold handleSubmit.
  unfold bind at 1. unfold clearError, bind at 1. cbn [setError set_state setRetryCount].
  unfold bind at 1. rewrite (validateForm_valid _ _ Hv). cbn [negb].
  unfold bind at 1. cbn [setIsLoading set_state state world].
  unfold try_finally, try_catch at 1.
  unfold bind at 1, await_fetchRandomUser, lift. fold (fetch_result env). rewrite Hf.
  unfold bind at 1. unfold try_catch at 1. unfold bind at 1. unfold in_world at 1.
  cbn [world state].
  destruct (saveUserToStorage u (world p)) as [[[]|t] w].
  - cbn. destruct (router_push env) as [[]|t]; cbn; do 3 eexists; split;
      try reflexivity; auto.
  - cbn. do 3 eexists; split; try reflexivity; auto.
Qed.

Lemma retry_runs_submit (r : State) (env : Environment) (p : Page) :
  is_retryable (error r) = true -> handleRetry r env p = handleSubmit r env p.
Proof. intros H. unfold handleRetry. rewrite H. reflexivity. Qed.

(** ** The counter after one run *)

Lemma submit_counter (r : State) (env : Environment) (p : Page) :
  retryCount (state (run (handleSubmit r env) p)) = counter_after r env.
Proof.
  unfold counter_after, fetch_fails, run.
  destruct (validateIranianPhone (phoneNumber r)) eqn:Hv.
  - destruct (fetch_result env) as [u|t] eqn:Hf.
    + destruct (submit_fetched r env u p Hv Hf) as (e & b & w & -> & _). reflexivity.
    + destruct (submit_fetch_failure r env t p Hv Hf) as (e & -> & _). reflexivity.
  - destruct (submit_validation_failure r env p Hv) as (e & -> & _). reflexivity.
Qed.

(** ** Events *)

Lemma dispatch_submit_failure (p : Page) (env : Environment) (t : Thrown) :
  controls_disabled (state p) = false ->
  validateIranianPhone (phoneNumber (state p)) = true ->
  fetch_result env = Throw t ->
  exists e,
    dispatch p (Submit env) =
      settled p (Some e) (S (retryCount (state p))) false (world p) /\
    retryable e = true.
Proof.
  intros Hc Hv Hf. unfold dispatch. rewrite Hc. unfold run.
  destruct (submit_fetch_failure (state p) env t p Hv Hf) as (e & -> & He).
  exists e. split; [|exact He]. cbn [snd].
  apply orb_false_elim in Hc as [_ ->]. reflexivity.
Qed.

Lemma dispatch_retry_failure (p : Page) (env : Environment) (t : Thrown) :
  controls_disabled (state p) = false ->
  retry_offered (state p) = true ->
  validateIranianPhone (phoneNumber (state p)) = true ->
  fetch_result env = Throw t ->
  exists e,
    dispatch p (ClickRetry env) =
      settled p (Some e) (S (retryCount (state p))) false (world p) /\
    retryable e = true.
Proof.
  intros Hc Ho Hv Hf. unfold dispatch. rewrite Hc, Ho. cbn [negb andb]. unfold run.
  apply andb_true_iff in Ho as [Hr _]. rewrite (retry_runs_submit _ _ _ Hr).
  destruct (submit_fetch_failure (state p) env t p Hv Hf) as (e & -> & He).
  exists e. split; [|exact He]. cbn [snd].
  apply orb_false_elim in Hc as [_ ->]. reflexivity.
Qed.

Lemma dispatch_retry_not_offered (p : Page) (env : Environment) :
  retry_offered (state p) = false -> dispatch p (ClickRetry env) = p.
Proof. intros H. unfold dispatch. now rewrite H. Qed.

(** Three fetch failures in a row, starting from a counter at 0: the retry
    is offered after the first and the second, and withdrawn after the
    third. *)
Lemma budget_from_zero (p : Page) (e1 e2 e3 : Environment) (t1 t2 t3 : Thrown) :
  controls_disabled (state p) = false ->
  retryCount (state p) = 0%nat ->
  validateIranianPhone (phoneNumber (state p)) = true ->
  fetch_result e1 = Throw t1 -> fetch_result e2 = Throw t2 -> fetch_result e3 = Throw t3 ->
  let p1 := dispatch p (Submit e1) in
  let p2 := dispatch p1 (ClickRetry e2) in
  let p3 := dispatch p2 (ClickRetry e3) in
  (retryCount (state p1) = 1%nat /\ retry_offered (state p1) = true) /\
  (retryCount (state p2) = 2%nat /\ retry_offered (state p2) = true) /\
  (retryCount (state p3) = 3%nat /\ retry_offered (state p3) = false /\
   reset_offered (state p3) = true).
Proof.
  intros Hc H0 Hv H1 H2 H3.
  destruct (dispatch_submit_failure p e1 t1 Hc Hv H1) as (x1 & E1 & R1).
  cbv zeta. rewrite E1, H0.
  set (p1 := settled p (Some x1) 1 false (world p)).
  assert (O1 : retry_offered (state p1) = true)
    by (unfold p1, retry_offered; cbn; now rewrite R1).
  destruct (dispatch_retry_failure p1 e2 t2 eq_refl O1 Hv H2) as (x2 & E2 & R2).
  rewrite E2.
  set (p2 := settled p1 (Some x2) (S (retryCount (state p1))) false (world p1)).
  assert (O2 : retry_offered (state p2) = true)
    by (unfold p2, p1, retry_offered; cbn; now rewrite R2).
  destruct (dispatch_retry_failure p2 e3 t3 eq_refl O2 Hv H3) as (x3 & E3 & R3).
  rewrite E3. unfold retry_offered, reset_offered; cbn. rewrite R3. auto.
Qed.

(** C1, as the code has it.  Consecutive failures of the identity fetch,
    the first from a submission and the others from the retry action,
    exhaust the budget: after the third, no retry is offered and the full
    reset is.  Starting from a counter at 0 the retry is still offered
    after the first and after the second failure.  (A failure of the
    store or of the navigation is retryable too but is not counted.) *)
Theorem three_fetch_failures_exhaust_retry
    (p : Page) (e1 e2 e3 : Environment) (t1 t2 t3 : Thrown) :
  controls_disabled (state p) = false ->
  validateIranianPhone (phoneNumber (state p)) = true ->
  fetch_result e1 = Throw t1 -> fetch_result e2 = Throw t2 -> fetch_result e3 = Throw t3 ->
  let p1 := dispatch p (Submit e1) in
  let p2 := dispatch p1 (ClickRetry e2) in
  let p3 := dispatch p2 (ClickRetry e3) in
  (retry_offered (state p3) = false /\ reset_offered (state p3) = true) /\
  (retryCount (state p) = 0%nat ->
   retry_offered (state p1) = true /\ retry_offered (state p2) = true /\
   retryCount (state p3) = 3%nat).
Proof.
  intros Hc Hv H1 H2 H3. cbv zeta. split.
  2: { intros H0.
       destruct (budget_from_zero p e1 e2 e3 t1 t2 t3 Hc H0 Hv H1 H2 H3)
         as ((_ & O1) & (_ & O2) & (C3 & _)). auto. }
  destruct (dispatch_submit_failure p e1 t1 Hc Hv H1) as (x1 & E1 & R1).
  rewrite E1. set (n := retryCount (state p)).
  set (p1 := settled p (Some x1) (S n) false (world p)).
  destruct (retry_offered (state p1)) eqn:O1.
  - destruct (dispatch_retry_failure p1 e2 t2 eq_refl O1 Hv H2) as (x2 & E2 & R2).
    rewrite E2.
    set (p2 := settled p1 (Some x2) (S (retryCount (state p1))) false (world p1)).
    destruct (retry_offered (state p2)) eqn:O2.
    + destruct (dispatch_retry_failure p2 e3 t3 eq_refl O2 Hv H3) as (x3 & E3 & R3).
      rewrite E3. revert O1 O2. unfold p2, p1, retry_offered, reset_offered; cbn.
      rewrite R1, R2, R3. destruct n as [|[|[|n]]]; cbn; auto; discriminate.
    + rewrite (dispatch_retry_not_offered p2 e3 O2). split; [exact O2|].
      revert O1 O2. unfold p2, p1, retry_offered, reset_offered; cbn.
      rewrite R1, R2. destruct n as [|[|n]]; cbn; auto; discriminate.
  - rewrite (dispatch_retry_not_offered p1 e2 O1), (dispatch_retry_not_offered p1 e3 O1).
    split; [exact O1|].
    revert O1. unfold p1, retry_offered, reset_offered; cbn.
    rewrite R1. destruct n as [|[|[|n]]]; cbn; auto; discriminate.
Qed.

(** C2, as the code has it.  A fresh submission and a retry treat the
    counter alike: the run leaves one more than the render it started from
    when the phone number is valid and the identity fetch fails, and 0 in
    every other case. *)
Theorem retry_counter_after_run (p : Page) (env : Environment) :
  controls_disabled (state p) = false ->
  retryCount (state (dispatch p (Submit env))) = counter_after (state p) env /\
  (retry_offered (state p) = true ->
   retryCount (state (dispatch p (ClickRetry env))) = counter_after (state p) env).
Proof.
  intros Hc. unfold dispatch. rewrite Hc. split.
  - apply submit_counter.
  - intros Ho. rewrite Ho. cbn [negb andb].
    apply andb_true_iff in Ho as [Hr _]. unfold run.
    rewrite (retry_runs_submit _ _ _ Hr). apply submit_counter.
Qed.

(** ** Settled pages *)

Lemma submit_settles (p : Page) (env : Environment) :
  controls_disabled (state p) = false ->
  settled_page (run (handleSubmit (state p) env) p).
Proof.
  intros Hc. apply orb_false_elim in Hc as [Hl Hr]. unfold run.
  destruct (validateIranianPhone (phoneNumber (state p))) eqn:Hv.
  - destruct (fetch_result env) as [u|t] eqn:Hf.
    + destruct (submit_fetched (state p) env u p Hv Hf)
        as (e & b & w & -> & [[-> ->]|[He [->| ->]]]);
        split; cbn; auto; congruence.
    + destruct (submit_fetch_failure (state p) env t p Hv Hf) as (e & -> & _).
      split; cbn; auto.
  - destruct (submit_validation_failure (state p) env p Hv) as (e & -> & _).
    split; cbn; auto.
Qed.

Lemma reachable_settled (p : Page) : reachable p -> settled_page p.
Proof.
  induction 1 as [w|p ev Hp [Hl He]].
  - split; [reflexivity | intros H; now destruct H].
  - unfold dispatch. destruct ev as [value|env|env|].
    + destruct (controls_disabled (state p)); [now split|].
      unfold run, handlePhoneChange.
      destruct (error (state p)) eqn:E; (split; cbn; [exact Hl|]).
      * intros H. now destruct H.
      * rewrite E. exact He.
    + destruct (controls_disabled (state p)) eqn:Hc; [now split|].
      now apply submit_settles.
    + destruct (retry_offered (state p)) eqn:Ho; [|now split].
      destruct (controls_disabled (state p)) eqn:Hc; [now split|]. cbn [negb andb].
      apply andb_true_iff in Ho as [Hr _]. unfold run.
      rewrite (retry_runs_submit _ _ _ Hr). now apply submit_settles.
    + destruct (reset_offered (state p)); [|now split].
      split; [reflexivity | intros H; now destruct H].
Qed.

Lemma error_presented_enabled (p : Page) (shown : ErrorState) :
  reachable p -> error (state p) = Some shown -> controls_disabled (state p) = false.
Proof.
  intros Hp He. destruct (reachable_settled p Hp) as [Hl Hr].
  unfold controls_disabled. rewrite Hl, Hr; [reflexivity | congruence].
Qed.

(** C10.  In every page a run of the controller reaches, a change of the
    phone-number input while an error is presented clears the error and
    sets the counter to 0, whatever it was; the next submission chain then
    has the whole budget: with a valid number typed, the retry is offered
    after a first and a second fetch failure and withdrawn after the
    third. *)
Theorem keystroke_restores_retry_budget
    (p : Page) (shown : ErrorState) (value : jsstring) :
  reachable p ->
  error (state p) = Some shown ->
  let p' := dispatch p (Change value) in
  (error (state p') = None /\ retryCount (state p') = 0%nat /\
   phoneNumber (state p') = value /\ world p' = world p) /\
  (forall (e1 e2 e3 : Environment) (t1 t2 t3 : Thrown),
     validateIranianPhone value = true ->
     fetch_result e1 = Throw t1 -> fetch_result e2 = Throw t2 ->
     fetch_result e3 = Throw t3 ->
     let p1 := dispatch p' (Submit e1) in
     let p2 := dispatch p1 (ClickRetry e2) in
     let p3 := dispatch p2 (ClickRetry e3) in
     (retryCount (state p1) = 1%nat /\ retry_offered (state p1) = true) /\
     (retryCount (state p2) = 2%nat /\ retry_offered (state p2) = true) /\
     (retryCount (state p3) = 3%nat /\ retry_offered (state p3) = false /\
      reset_offered (state p3) = true)).
Proof.
  intros Hp He. cbv zeta.
  pose proof (error_presented_enabled p shown Hp He) as Hc.
  assert (E : dispatch p (Change value) =
              {| state := {| phoneNumber := value; error := None;
                             isLoading := isLoading (state p);
                             isRedirecting := isRedirecting (state p);
                             retryCount := 0 |};
                 world := world p |}).
  { unfold dispatch. rewrite Hc. unfold run, handlePhoneChange. rewrite He. reflexivity. }
  rewrite E. split; [auto|].
  intros e1 e2 e3 t1 t2 t3 Hv H1 H2 H3.
  apply (budget_from_zero _ e1 e2 e3 t1 t2 t3); auto.
Qed.

End WithJSON.

(** ** Concrete runs *)

Import Fixtures ReferenceJSON.

Lemma server_down_fails : fetch_result server_down = Throw status_500.
Proof. reflexivity. Qed.

(** The scenario of the repository's test "shows retry attempts and
    limits": a failed submission, then a retry that fails again, shows
    "Attempt 2 of 3". *)
Example attempt_two_of_three :
  attempt_shown (state (dispatch (dispatch start (Submit server_down))
                                 (ClickRetry server_down))) = Some 2%nat.
Proof. vm_compute. reflexivity. Qed.

(** The scenarios of the specification. *)

(** Happy path: the record is fetched, stored, and the page redirects. *)
Example scenario_happy_path :
  let p := dispatch start (Submit all_well) in
  error (state p) = None /\ isRedirecting (state p) = true /\
  retryCount (state p) = 0%nat /\
  fst (isAuthenticated (world p)) = Normal true.
Proof. vm_compute. repeat split. Qed.

(** HTTP 500: an error of type [api], retryable, and the counter at 1. *)
Example scenario_http_500 :
  let p := dispatch start (Submit server_down) in
  error (state p) = Some server_error /\ retryCount (state p) = 1%nat /\
  retry_offered (state p) = true.
Proof. vm_compute. repeat split. Qed.

(** Empty input: a validation error that cannot be retried. *)
Example scenario_empty_input :
  let p := dispatch (page_with [] (browser ∅)) (Submit all_well) in
  (exists e, error (state p) = Some e /\ type e = validation /\ retryable e = false) /\
  retry_offered (state p) = false /\ world p = browser ∅.
Proof. vm_compute. split; [eexists|]; repeat split. Qed.

(** Storage full: a retryable error of type [storage], nothing stored. *)
Example scenario_storage_full :
  let p := dispatch start_full (Submit all_well) in
  error (state p) = Some storage_error /\ world p = full_browser.
Proof. vm_compute. repeat split. Qed.

(** A fetched record without [picture] is presented as an [api] error
    carrying the client's message. *)
Example scenario_missing_fields :
  let env := {| remote := answering (api_body user_without_picture);
                router_push := Normal tt |} in
  error (state (dispatch start (Submit env))) =
    Some {| message := js "Invalid user data: missing required fields";
            type := api; retryable := true |}.
Proof. vm_compute. reflexivity. Qed.

Lemma three_fetch_failures_exhaust_retry_witness :
  let p1 := dispatch start (Submit server_down) in
  let p2 := dispatch p1 (ClickRetry server_down) in
  let p3 := dispatch p2 (ClickRetry server_down) in
  (retry_offered (state p3) = false /\ reset_offered (state p3) = true) /\
  retry_offered (state p1) = true /\ retry_offered (state p2) = true /\
  retryCount (state p3) = 3%nat.
Proof.
  cbv zeta.
  destruct (three_fetch_failures_exhaust_retry start server_down server_down server_down
              status_500 status_500 status_500
              eq_refl eq_refl server_down_fails server_down_fails server_down_fails)
    as [H1 H2].
  split; [exact H1 | exact (H2 eq_refl)].
Defined.

(** C1, as stated, fails when the three retryable failures come from the
    store: each run ends with the retryable storage error presented, the
    counter stays at 0, and the retry is offered again. *)
Lemma three_storage_failures_keep_retry :
  let p1 := dispatch start_full (Submit all_well) in
  let p2 := dispatch p1 (ClickRetry all_well) in
  let p3 := dispatch p2 (ClickRetry all_well) in
  (error (state p1) = Some storage_error /\ error (state p2) = Some storage_error /\
   error (state p3) = Some storage_error) /\
  retryCount (state p3) = 0%nat /\
  retry_offered (state p3) = true /\ reset_offered (state p3) = false.
Proof. vm_compute. repeat split. Qed.

Lemma retry_counter_after_run_witness :
  let p1 := dispatch start (Submit server_down) in
  retryCount (state p1) = 1%nat /\
  retryCount (state (dispatch p1 (ClickRetry server_down))) = 2%nat /\
  retryCount (state (dispatch p1 (ClickRetry all_well))) = 0%nat.
Proof.
  cbv zeta.
  destruct (retry_counter_after_run start server_down eq_refl) as [H1 _].
  destruct (retry_counter_after_run (dispatch start (Submit server_down)) server_down
              eq_refl) as [_ H2].
  destruct (retry_counter_after_run (dispatch start (Submit server_down)) all_well
              eq_refl) as [_ H3].
  rewrite H1, (H2 eq_refl), (H3 eq_refl). repeat split.
Defined.

(** C2, as stated, fails both ways.  A retry whose run ends in a storage
    failure takes the counter from 1 back to 0, and a fresh submission made
    while the counter is 1 leaves it at 2, not 0, when its fetch fails. *)
Lemma retry_resets_and_submission_increments :
  let p1 := dispatch start_full (Submit server_down) in
  (retryCount (state p1) = 1%nat /\ retry_offered (state p1) = true) /\
  (retryCount (state (dispatch p1 (ClickRetry all_well))) = 0%nat /\
   error (state (dispatch p1 (ClickRetry all_well))) = Some storage_error) /\
  retryCount (state (dispatch p1 (Submit server_down))) = 2%nat.
Proof. vm_compute. repeat split. Qed.

Lemma keystroke_restores_retry_budget_witness :
  let p2 := dispatch (dispatch start (Submit server_down)) (ClickRetry server_down) in
  let p' := dispatch p2 (Change (js "09123456780")) in
  (reachable p2 /\ retryCount (state p2) = 2%nat /\ error (state p2) = Some server_error) /\
  (error (state p') = None /\ retryCount (state p') = 0%nat /\
   phoneNumber (state p') = js "09123456780" /\ world p' = world p2) /\
  retry_offered (state (dispatch (dispatch p' (Submit server_down))
                                 (ClickRetry server_down))) = true.
Proof.
  cbv zeta.
  assert (R : reachable (dispatch (dispatch start (Submit server_down))
                                  (ClickRetry server_down))).
  { do 2 apply reach_event.
    exact (reach_event _ (Change (js "09123456789")) (reach_mount (browser ∅))). }
  split; [split; [exact R | split; reflexivity]|].
  destruct (keystroke_restores_retry_budget
              (dispatch (dispatch start (Submit server_down)) (ClickRetry server_down))
              server_error (js "09123456780") R eq_refl) as [H1 H2].
  split; [exact H1|].
  destruct (H2 server_down server_down server_down status_500 status_500 status_500
              eq_refl server_down_fails server_down_fails server_down_fails)
    as (_ & (_ & O2) & _).
  exact O2.
Defined.

End LoginControllerProofs.
